(** * setup.py: the provisioning script of did-credential-manager

    The script checks that [npm] and [yarn] are on the execution path, reads
    two secrets from standard input, runs [npm install] / [yarn install] in a
    fixed list of directories and writes three [.env] files.

    The embedding below is shallow: every Python function of [setup.py] is a
    Rocq function in a small state-and-exception monad [M].  The outside
    world (path lookup, spawned processes, the file system's willingness to
    accept a write) is an explicit environment [env]; the mutable part (the
    files, the unread input lines, the events performed so far) is [world].

    What the model leaves out: [print] always succeeds; no signal arrives
    (no [KeyboardInterrupt]); [files] are the files as the script itself
    changes them, so what a spawned package manager does to the disk or
    reads from the inherited input is not recorded, and no theorem below
    should be read as a statement about it; a file is known by the text of
    its [Path], without symbolic links or a current directory; text is
    taken to be encodable and free of NUL characters, so that the failures
    of [write_text], [input] and [subprocess.run] are the OS errors, the end
    of input and the non-zero exit, without [UnicodeEncodeError],
    [UnicodeDecodeError] or [ValueError]. *)

From Stdlib Require Import String Ascii ZArith NArith List Lia.
From stdpp Require Import base option list gmap.

Local Open Scope Z_scope.

(** ** Python text

    A Python [str] is a sequence of Unicode code points.  ASCII literals of
    the source are written with [lit]; other characters of the source (the
    emoji of the messages, the double quote, the newline) are given by their
    code point. *)

Abbreviation str := (list N).

Definition lit (s : string) : str :=
  map N_of_ascii (list_ascii_of_string s).
Arguments lit : simpl never.

Definition DQUOTE : N := 34%N.
Definition NEWLINE : N := 10%N.
Definition ROCKET : N := 0x1F680%N.
Definition CROSS_MARK : N := 0x274C%N.
Definition WRENCH : N := 0x1F527%N.
Definition CHECK_MARK : N := 0x2705%N.
Definition KEY : N := 0x1F511%N.
Definition PLUG : N := 0x1F50C%N.

(** [str.isspace] for one character, as CPython decides it. *)
Definition isspace (c : N) : bool :=
  ((0x09 <=? c) && (c <=? 0x0D) ||
   (0x1C <=? c) && (c <=? 0x1F) ||
   (c =? 0x20) || (c =? 0x85) || (c =? 0xA0) || (c =? 0x1680) ||
   (0x2000 <=? c) && (c <=? 0x200A) ||
   (c =? 0x2028) || (c =? 0x2029) || (c =? 0x202F) || (c =? 0x205F) ||
   (c =? 0x3000))%N.

Fixpoint lstrip (s : str) : str :=
  match s with
  | [] => []
  | c :: s' => if isspace c then lstrip s' else s
  end.

Definition rstrip (s : str) : str := rev (lstrip (rev s)).

(** [s.strip()] *)
Definition strip (s : str) : str := rstrip (lstrip s).
Arguments strip : simpl never.

(** ** pathlib (POSIX flavour)

    [Path(s)] splits [s] at ['/'], drops empty and ["."] components and keeps
    the root (["/"], or ["//"] for exactly two leading slashes). *)

Definition SLASH : N := 47%N.

Fixpoint split_slash (s : str) : list str :=
  match s with
  | [] => [[]]
  | c :: s' =>
      if (c =? SLASH)%N then [] :: split_slash s'
      else match split_slash s' with
           | [] => [[c]]
           | p :: ps => (c :: p) :: ps
           end
  end.

Record Path := mkPath { root : str; parts : list str }.

Definition path_root (s : str) : str :=
  match s with
  | a :: b :: c :: _ =>
      if (a =? SLASH)%N then
        if (b =? SLASH)%N then
          if (c =? SLASH)%N then [SLASH] else [SLASH; SLASH]
        else [SLASH]
      else []
  | [a; b] =>
      if (a =? SLASH)%N then
        if (b =? SLASH)%N then [SLASH; SLASH] else [SLASH]
      else []
  | [a] => if (a =? SLASH)%N then [SLASH] else []
  | [] => []
  end.

Definition keep_part (p : str) : bool :=
  negb (bool_decide (p = [])) && negb (bool_decide (p = lit ".")).

Definition path_of (s : str) : Path :=
  {| root := path_root s; parts := List.filter keep_part (split_slash s) |}.

(** [p / s] *)
Definition joinpath (p : Path) (s : str) : Path :=
  let q := path_of s in
  match root q with
  | [] => {| root := root p; parts := parts p ++ parts q |}
  | _ => q
  end.

Fixpoint join_slash (ps : list str) : str :=
  match ps with
  | [] => []
  | [p] => p
  | p :: ps' => p ++ SLASH :: join_slash ps'
  end.

(** [str(p)], the name under which the file system knows the file *)
Definition fspath (p : Path) : str :=
  match root p, parts p with
  | [], [] => lit "."
  | r, ps => r ++ join_slash ps
  end.

(** ** Exceptions, environment, world *)

Inductive exn :=
| SystemExit (code : Z)
| CalledProcessError (returncode : Z) (cmd : list str)
| OSError (errno : Z)
| EOFError.

Inductive res (A : Type) :=
| Ok (a : A)
| Raise (e : exn).
Arguments Ok {A} a.
Arguments Raise {A} e.

(** What a spawned process can do: run to an exit status, or not start at
    all (missing working directory, executable that cannot be run). *)
Inductive proc_result :=
| Exited (returncode : Z)
| SpawnError (errno : Z).

(** What [write_text] can do: succeed, or fail with an OS error.  A failure
    at [open] leaves the target as it was ([residue = None]); a failure
    after the file was opened leaves whatever reached the disk
    ([residue = Some s]). *)
Inductive write_result :=
| WriteOk
| WriteFail (errno : Z) (residue : option str).

Record env := mkEnv {
  shutil_which : str -> option str;
  spawn : list str -> str -> proc_result;
  fs_write : str -> str -> write_result
}.

Inductive event :=
| EvPrint (text : str)
| EvWhich (command : str)
| EvPrompt (prompt : str)
| EvRun (argv : list str) (cwd : str) (r : proc_result)
| EvWrite (path : str) (data : str) (r : write_result)
| EvTraceback (e : exn).

Record world := mkWorld {
  files : gmap str str;
  stdin : list str;
  trace : list event
}.

(** ** The monad *)

Definition M (A : Type) : Type := env -> world -> res A * world.

#[global] Instance M_ret : MRet M := fun A a _ w => (Ok a, w).
#[global] Instance M_bind : MBind M := fun A B f m E w =>
  match m E w with
  | (Ok a, w') => f a E w'
  | (Raise e, w') => (Raise e, w')
  end.

#[global] Instance M_fmap : FMap M := fun A B f m E w =>
  match m E w with
  | (Ok a, w') => (Ok (f a), w')
  | (Raise e, w') => (Raise e, w')
  end.

Definition raise {A} (e : exn) : M A := fun _ w => (Raise e, w).

(** The world after a further run of events. *)
Definition log (evs : list event) (w : world) : world :=
  {| files := files w; stdin := stdin w; trace := trace w ++ evs |}.

Definition emit (ev : event) : M unit := fun _ w => (Ok tt, log [ev] w).

(** [try: body except <handled>: handler]; [handler e = None] when the
    [except] clause does not match [e]. *)
Definition try_except {A} (body : M A) (handler : exn -> option (M A)) : M A :=
  fun E w =>
    match body E w with
    | (Raise e, w') =>
        match handler e with
        | Some h => h E w'
        | None => (Raise e, w')
        end
    | r => r
    end.

(** [for x in xs: body(x)] *)
Fixpoint for_each {A} (xs : list A) (body : A -> M unit) : M unit :=
  match xs with
  | [] => mret tt
  | x :: xs' => body x ;; for_each xs' body
  end.

(** ** Runtime operations used by the script *)

Definition print (text : str) : M unit := emit (EvPrint text).

Definition sys_exit {A} (code : Z) : M A := raise (SystemExit code).

(** [input(prompt)]: shows the prompt, returns the next line without its
    newline, raises [EOFError] at end of input. *)
Definition with_stdin (ls : list str) (w : world) : world :=
  {| files := files w; stdin := ls; trace := trace w |}.

Definition readline : M str := fun _ w =>
  match stdin w with
  | [] => (Raise EOFError, w)
  | l :: ls => (Ok l, with_stdin ls w)
  end.

Definition input (prompt : str) : M str :=
  emit (EvPrompt prompt) ;; readline.

(** [shutil.which(command)] *)
Definition lookup_path (command : str) : M (option str) :=
  fun E w => (Ok (shutil_which E command), w).

Definition which (command : str) : M (option str) :=
  emit (EvWhich command) ;; lookup_path command.

(** [subprocess.run(argv, cwd=cwd, check=True)] *)
Definition subprocess_run (argv : list str) (cwd : str) : M unit :=
  fun E w =>
    let r := spawn E argv cwd in
    let w' := log [EvRun argv cwd r] w in
    match r with
    | Exited rc =>
        if (rc =? 0) then (Ok tt, w')
        else (Raise (CalledProcessError rc argv), w')
    | SpawnError errno => (Raise (OSError errno), w')
    end.

(** [p.write_text(data)]: opens for writing (truncating), writes, closes. *)
Definition store (k data : str) (w : world) : world :=
  {| files := <[k := data]> (files w); stdin := stdin w; trace := trace w |}.

Definition write_text (p : Path) (data : str) : M unit :=
  fun E w =>
    let k := fspath p in
    let r := fs_write E k data in
    match r with
    | WriteOk => (Ok tt, log [EvWrite k data r] (store k data w))
    | WriteFail errno residue =>
        (Raise (OSError errno),
         log [EvWrite k data r]
           (match residue with
            | Some s => store k s w
            | None => w
            end))
    end.

(** ** setup.py *)

Definition NPM_DIRS : list str :=
  [ lit "./demo/bank-app/frontend";
    lit "./demo/bank-app/backend";
    lit "./demo/dmv-app/frontend";
    lit "./demo/dmv-app/backend" ].

Definition YARN_DIR : str := lit "./snap".

Definition ENV_DIRS_BACKEND : list str :=
  [ lit "./demo/bank-app/backend";
    lit "./demo/dmv-app/backend" ].

Definition ENV_DIR_SNAP : str := lit "./snap/packages/snap".

Definition check_command_exists (command : str) : M bool :=
  p ← which command;
  mret (match p with Some _ => true | None => false end).

(** The two messages of [run_install] (f-strings of lines 32 and 35). *)
Definition msg_running (command path : str) : str :=
  [WRENCH] ++ lit " Running `" ++ command ++ lit " install` in " ++ path ++ lit "...".

Definition msg_install_failed (command path : str) : str :=
  [CROSS_MARK] ++ lit " Error: `" ++ command ++ lit " install` failed in " ++ path ++ lit ".".

Definition run_install (command path : str) : M unit :=
  try_except
    (print (msg_running command path) ;;
     subprocess_run [command; lit "install"] path)
    (fun e =>
       match e with
       | CalledProcessError _ _ =>
           Some (print (msg_install_failed command path) ;; sys_exit 1)
       | _ => None
       end).

Definition msg_wrote (path : str) : str :=
  [CHECK_MARK] ++ lit " Wrote .env file to " ++ path.

Definition backend_env_contents (wallet_key infura_id : str) : str :=
  lit "WALLET_PRIVATE_KEY=" ++ [DQUOTE] ++ wallet_key ++ [DQUOTE; NEWLINE] ++
  lit "INFURA_PROJECT_ID=" ++ [DQUOTE] ++ infura_id ++ [DQUOTE; NEWLINE].

Definition snap_env_contents (infura_id : str) : str :=
  lit "INFURA_PROJECT_ID=" ++ [DQUOTE] ++ infura_id ++ [DQUOTE; NEWLINE] ++
  lit "COMPANION_APP_ORIGIN=" ++ [DQUOTE] ++ lit "http://localhost:8000" ++ [DQUOTE; NEWLINE].

Definition write_env_file_backend (path wallet_key infura_id : str) : M unit :=
  let env_path := joinpath (path_of path) (lit ".env") in
  let env_contents := backend_env_contents wallet_key infura_id in
  write_text env_path env_contents ;;
  print (msg_wrote path).

Definition write_env_file_snap (path infura_id : str) : M unit :=
  let env_path := joinpath (path_of path) (lit ".env") in
  let env_contents := snap_env_contents infura_id in
  write_text env_path env_contents ;;
  print (msg_wrote path).

Definition msg_starting : str :=
  [ROCKET] ++ lit " Project setup starting..." ++ [NEWLINE].

Definition msg_npm_missing : str :=
  [CROSS_MARK] ++ lit " Error: `npm` is not installed or not in PATH.".

Definition msg_yarn_missing : str :=
  [CROSS_MARK] ++ lit " Error: `yarn` is not installed or not in PATH.".

Definition prompt_wallet_key : str :=
  [KEY] ++ lit " Enter your Ethereum wallet private key: ".

Definition prompt_infura_id : str :=
  [PLUG] ++ lit " Enter your Infura testnet project ID: ".

Definition msg_complete : str :=
  [NEWLINE; CHECK_MARK] ++ lit " Setup complete! You're ready to go.".

Arguments msg_running : simpl never.
Arguments msg_install_failed : simpl never.
Arguments msg_wrote : simpl never.
Arguments backend_env_contents : simpl never.
Arguments snap_env_contents : simpl never.
Arguments msg_starting : simpl never.
Arguments msg_npm_missing : simpl never.
Arguments msg_yarn_missing : simpl never.
Arguments prompt_wallet_key : simpl never.
Arguments prompt_infura_id : simpl never.
Arguments msg_complete : simpl never.

Definition main : M unit :=
  print msg_starting ;;
  has_npm ← check_command_exists (lit "npm");
  (if negb has_npm then print msg_npm_missing ;; sys_exit 1 else mret tt : M unit) ;;
  has_yarn ← check_command_exists (lit "yarn");
  (if negb has_yarn then print msg_yarn_missing ;; sys_exit 1 else mret tt : M unit) ;;
  wallet_key ← strip <$> input prompt_wallet_key;
  infura_id ← strip <$> input prompt_infura_id;
  for_each NPM_DIRS (fun directory => run_install (lit "npm") directory) ;;
  run_install (lit "yarn") YARN_DIR ;;
  for_each ENV_DIRS_BACKEND
    (fun directory => write_env_file_backend directory wallet_key infura_id) ;;
  write_env_file_snap ENV_DIR_SNAP infura_id ;;
  print msg_complete.

(** ** The process

    [if __name__ == "__main__": main()] under the interpreter: a normal
    return ends the process with status 0; [SystemExit(c)] ends it silently
    with the status [c] (truncated to a byte); any other exception reaches
    the top level, where the interpreter prints a traceback and ends the
    process with status 1. *)

Record outcome := mkOutcome {
  result : res unit;
  exit_status : Z;
  final : world
}.

Definition terminate (r : res unit) (w : world) : outcome :=
  match r with
  | Ok u => {| result := Ok u; exit_status := 0; final := w |}
  | Raise (SystemExit c) =>
      {| result := Raise (SystemExit c); exit_status := Z.land c 255; final := w |}
  | Raise e =>
      {| result := Raise e; exit_status := 1; final := log [EvTraceback e] w |}
  end.

Definition run_script (E : env) (fs : gmap str str) (lines : list str) : outcome :=
  let '(r, w) := main E {| files := fs; stdin := lines; trace := [] |} in
  terminate r w.

(** * Describing a run

    The definitions of this part are not code of the script: they name the
    pieces of a run so that the theorems can speak about them. *)

(** The file written for a directory: [str(Path(directory) / ".env")]. *)
Definition env_path (directory : str) : str :=
  fspath (joinpath (path_of directory) (lit ".env")).
Arguments env_path : simpl never.

(** The install invocations of [main], in order, as (command, directory). *)
Definition INSTALLS : list (str * str) :=
  map (pair (lit "npm")) NPM_DIRS ++ [(lit "yarn", YARN_DIR)].

(** The file writes of [main], in order, as (directory, contents). *)
Definition WRITES (wallet_key infura_id : str) : list (str * str) :=
  map (fun d => (d, backend_env_contents wallet_key infura_id)) ENV_DIRS_BACKEND ++
  [(ENV_DIR_SNAP, snap_env_contents infura_id)].

Definition install1 (cd : str * str) : M unit := run_install cd.1 cd.2.

(** The common body of [write_env_file_backend] and [write_env_file_snap]. *)
Definition write1 (dc : str * str) : M unit :=
  write_text (joinpath (path_of dc.1) (lit ".env")) dc.2 ;; print (msg_wrote dc.1).

(** Lines 64 to 74 of [main]: what happens once the secrets are read. *)
Definition provision (wallet_key infura_id : str) : M unit :=
  for_each NPM_DIRS (fun directory => run_install (lit "npm") directory) ;;
  run_install (lit "yarn") YARN_DIR ;;
  for_each ENV_DIRS_BACKEND
    (fun directory => write_env_file_backend directory wallet_key infura_id) ;;
  write_env_file_snap ENV_DIR_SNAP infura_id ;;
  print msg_complete.

Definition installed (E : env) (cd : str * str) : Prop :=
  spawn E [cd.1; lit "install"] cd.2 = Exited 0.

Definition ev_installed (cd : str * str) : list event :=
  [EvPrint (msg_running cd.1 cd.2); EvRun [cd.1; lit "install"] cd.2 (Exited 0)].

Definition written (E : env) (dc : str * str) : Prop :=
  fs_write E (env_path dc.1) dc.2 = WriteOk.

Definition ev_written (dc : str * str) : list event :=
  [EvWrite (env_path dc.1) dc.2 WriteOk; EvPrint (msg_wrote dc.1)].

Definition put (fs : gmap str str) (dc : str * str) : gmap str str :=
  <[env_path dc.1 := dc.2]> fs.

Definition leave (residue : option str) (k : str) (fs : gmap str str) : gmap str str :=
  match residue with
  | Some s => <[k := s]> fs
  | None => fs
  end.

Definition with_files (upd : gmap str str -> gmap str str) (w : world) : world :=
  {| files := upd (files w); stdin := stdin w; trace := trace w |}.

(** How a sequence of installs can go: all succeed, or the first one that
    does not succeed ends the sequence, by a non-zero exit status (checked)
    or by failing to start (unchecked). *)
Inductive install_phase (E : env) (cds : list (str * str)) :
  res unit -> list event -> Prop :=
| IP_all :
    Forall (installed E) cds ->
    install_phase E cds (Ok tt) (flat_map ev_installed cds)
| IP_failed pre c d post rc :
    cds = pre ++ (c, d) :: post ->
    Forall (installed E) pre ->
    spawn E [c; lit "install"] d = Exited rc -> rc <> 0 ->
    install_phase E cds (Raise (SystemExit 1))
      (flat_map ev_installed pre ++
       [EvPrint (msg_running c d); EvRun [c; lit "install"] d (Exited rc);
        EvPrint (msg_install_failed c d)])
| IP_crashed pre c d post errno :
    cds = pre ++ (c, d) :: post ->
    Forall (installed E) pre ->
    spawn E [c; lit "install"] d = SpawnError errno ->
    install_phase E cds (Raise (OSError errno))
      (flat_map ev_installed pre ++
       [EvPrint (msg_running c d); EvRun [c; lit "install"] d (SpawnError errno)]).

(** How a sequence of writes can go: all succeed, or the first failing one
    ends the sequence.  The third index is the effect on the files. *)
Inductive write_phase (E : env) (dcs : list (str * str)) :
  res unit -> list event -> (gmap str str -> gmap str str) -> Prop :=
| WP_all :
    Forall (written E) dcs ->
    write_phase E dcs (Ok tt) (flat_map ev_written dcs) (fun fs => foldl put fs dcs)
| WP_failed pre d c post errno residue :
    dcs = pre ++ (d, c) :: post ->
    Forall (written E) pre ->
    fs_write E (env_path d) c = WriteFail errno residue ->
    write_phase E dcs (Raise (OSError errno))
      (flat_map ev_written pre ++ [EvWrite (env_path d) c (WriteFail errno residue)])
      (fun fs => leave residue (env_path d) (foldl put fs pre)).

(** The events of the two tool checks and of the two prompts. *)
Definition CHECKS : list event :=
  [EvPrint msg_starting; EvWhich (lit "npm"); EvWhich (lit "yarn")].
Definition PROMPTS : list event :=
  [EvPrompt prompt_wallet_key; EvPrompt prompt_infura_id].
Definition tools_present (E : env) : Prop :=
  is_Some (shutil_which E (lit "npm")) /\ is_Some (shutil_which E (lit "yarn")).

(** Every way a run of the script can go.  [Run_install_abort] covers both
    the checked abort ([SystemExit 1] after a non-zero exit status) and the
    unchecked one (an [OSError] from a process that did not start). *)
Inductive script_run (E : env) (fs : gmap str str) (lines : list str) : outcome -> Prop :=
| Run_no_npm :
    shutil_which E (lit "npm") = None ->
    script_run E fs lines
      (terminate (Raise (SystemExit 1))
         {| files := fs; stdin := lines;
            trace := [EvPrint msg_starting; EvWhich (lit "npm"); EvPrint msg_npm_missing] |})
| Run_no_yarn :
    is_Some (shutil_which E (lit "npm")) ->
    shutil_which E (lit "yarn") = None ->
    script_run E fs lines
      (terminate (Raise (SystemExit 1))
         {| files := fs; stdin := lines; trace := CHECKS ++ [EvPrint msg_yarn_missing] |})
| Run_eof_wallet_key :
    tools_present E -> lines = [] ->
    script_run E fs lines
      (terminate (Raise EOFError)
         {| files := fs; stdin := []; trace := CHECKS ++ [EvPrompt prompt_wallet_key] |})
| Run_eof_infura_id a :
    tools_present E -> lines = [a] ->
    script_run E fs lines
      (terminate (Raise EOFError)
         {| files := fs; stdin := []; trace := CHECKS ++ PROMPTS |})
| Run_install_abort a b rest e evs :
    tools_present E -> lines = a :: b :: rest ->
    install_phase E INSTALLS (Raise e) evs ->
    script_run E fs lines
      (terminate (Raise e)
         {| files := fs; stdin := rest; trace := CHECKS ++ PROMPTS ++ evs |})
| Run_write_abort a b rest evs1 e evs2 upd :
    tools_present E -> lines = a :: b :: rest ->
    install_phase E INSTALLS (Ok tt) evs1 ->
    write_phase E (WRITES (strip a) (strip b)) (Raise e) evs2 upd ->
    script_run E fs lines
      (terminate (Raise e)
         {| files := upd fs; stdin := rest; trace := CHECKS ++ PROMPTS ++ evs1 ++ evs2 |})
| Run_complete a b rest evs1 evs2 upd :
    tools_present E -> lines = a :: b :: rest ->
    install_phase E INSTALLS (Ok tt) evs1 ->
    write_phase E (WRITES (strip a) (strip b)) (Ok tt) evs2 upd ->
    script_run E fs lines
      (terminate (Ok tt)
         {| files := upd fs; stdin := rest;
            trace := CHECKS ++ PROMPTS ++ evs1 ++ evs2 ++ [EvPrint msg_complete] |}).

(** Kinds of events. *)
Definition is_prompt (ev : event) : bool :=
  match ev with EvPrompt _ => true | _ => false end.
Definition is_run (ev : event) : bool :=
  match ev with EvRun _ _ _ => true | _ => false end.
Definition is_write (ev : event) : bool :=
  match ev with EvWrite _ _ _ => true | _ => false end.

Definition msg_missing (tool : str) : str :=
  [CROSS_MARK] ++ lit " Error: `" ++ tool ++ lit "` is not installed or not in PATH.".

(** The diagnostics the script prints itself all start with a cross mark. *)
Definition is_error_line (ev : event) : bool :=
  match ev with
  | EvPrint (c :: _) => (c =? CROSS_MARK)%N
  | _ => false
  end.

(** The latest contents written for the file [k] by a list of writes. *)
Fixpoint latest (k : str) (dcs : list (str * str)) : option str :=
  match dcs with
  | [] => None
  | dc :: dcs' =>
      match latest k dcs' with
      | Some c => Some c
      | None => if decide (env_path dc.1 = k) then Some dc.2 else None
      end
  end.

(** The line [NAME="value"] of an environment file, as the specification
    writes it. *)
Definition env_line (name : string) (value : str) : str :=
  lit name ++ lit "=" ++ [DQUOTE] ++ value ++ [DQUOTE] ++ [NEWLINE].

(** The two prompts were answered by lines that strip to the two secrets. *)
Definition collected (lines : list str) (wallet_key infura_id : str) : Prop :=
  exists a b rest, lines = a :: b :: rest /\ strip a = wallet_key /\ strip b = infura_id.

(** An environment in which both tools are found and every install
    succeeds, but the directory [./snap/packages/snap] does not exist:
    opening a file in it fails with ENOENT (2). *)
Definition E_snap_dir_missing : env :=
  {| shutil_which := fun command => Some (lit "/usr/bin/" ++ command);
     spawn := fun _ _ => Exited 0;
     fs_write := fun path _ =>
       if bool_decide (path = lit "snap/packages/snap/.env")
       then WriteFail 2 None else WriteOk |}.

(** The actions of a run: its events without their results, prints left out. *)
Inductive action :=
| AWhich (command : str)
| APrompt (prompt : str)
| ARun (argv : list str) (cwd : str)
| AWrite (path : str).

Definition action_of (ev : event) : option action :=
  match ev with
  | EvWhich command => Some (AWhich command)
  | EvPrompt prompt => Some (APrompt prompt)
  | EvRun argv cwd _ => Some (ARun argv cwd)
  | EvWrite path _ _ => Some (AWrite path)
  | EvPrint _ | EvTraceback _ => None
  end.

Definition run_action (cd : str * str) : action := ARun [cd.1; lit "install"] cd.2.
Definition write_action (d : str) : action := AWrite (env_path d).

Definition PLAN : list action :=
  [AWhich (lit "npm"); AWhich (lit "yarn")] ++
  [APrompt prompt_wallet_key; APrompt prompt_infura_id] ++
  map run_action INSTALLS ++
  map write_action (ENV_DIRS_BACKEND ++ [ENV_DIR_SNAP]).

Definition phase (a : action) : nat :=
  match a with
  | AWhich _ => 1
  | APrompt _ => 2
  | ARun _ _ => 3
  | AWrite _ => 4
  end.

(** The two terminal states the specification names: full success, where
    the confirmation is the last output and the status is zero; and abort at
    a checkpoint, where the script has printed a diagnostic and the status
    is not zero.  The third is the one it does not name: an exception that
    nothing catches, with no diagnostic of the script. *)
Definition full_success (R : outcome) : Prop :=
  result R = Ok tt /\ exit_status R = 0 /\
  last (trace (final R)) = Some (EvPrint msg_complete).

Definition checked_abort (R : outcome) : Prop :=
  exit_status R <> 0 /\
  exists ev, ev ∈ trace (final R) /\ is_error_line ev = true.

Definition uncaught_exception (R : outcome) : Prop :=
  exit_status R <> 0 /\
  (exists e, result R = Raise e /\ forall c, e <> SystemExit c) /\
  forall ev, ev ∈ trace (final R) -> is_error_line ev = false.


(** ** Further notions

    What one call of [write_env_file_backend] or [write_env_file_snap] does
    to the world [w], given its outcome [rw]: no other file is changed by
    it, no input is read, and either it returns, the file holds the data and
    the write is reported, or the write has failed, an exception is raised
    and nothing is reported. *)
Definition wrote_one_file (E : env) (path data : str) (w : world)
    (rw : res unit * world) : Prop :=
  (forall k, k <> env_path path -> files rw.2 !! k = files w !! k) /\
  stdin rw.2 = stdin w /\
  match rw.1 with
  | Ok _ =>
      fs_write E (env_path path) data = WriteOk /\
      files rw.2 !! env_path path = Some data /\
      trace rw.2 =
        trace w ++
        [EvWrite (env_path path) data WriteOk;
         EvPrint ([CHECK_MARK] ++ lit " Wrote .env file to " ++ path)]
  | Raise _ =>
      fs_write E (env_path path) data <> WriteOk /\
      trace rw.2 =
        trace w ++ [EvWrite (env_path path) data (fs_write E (env_path path) data)]
  end.

(** Whether a write succeeds does not depend on the data written. *)
Definition data_blind (E : env) : Prop :=
  forall path data data', fs_write E path data = fs_write E path data'.

Definition not_write (ev : event) : bool := negb (is_write ev).

(** ** Concrete environments

    Equality of events is decidable, so membership in a concrete trace can
    be computed. *)

#[global] Instance exn_eq_dec : EqDecision exn.
Proof. solve_decision. Defined.
#[global] Instance proc_result_eq_dec : EqDecision proc_result.
Proof. solve_decision. Defined.
#[global] Instance write_result_eq_dec : EqDecision write_result.
Proof. solve_decision. Defined.
#[global] Instance event_eq_dec : EqDecision event.
Proof. solve_decision. Defined.

(** Everything works. *)
Definition E_ok : env :=
  {| shutil_which := fun command => Some (lit "/usr/bin/" ++ command);
     spawn := fun _ _ => Exited 0;
     fs_write := fun _ _ => WriteOk |}.

(** [yarn] is not installed. *)
Definition E_no_yarn : env :=
  {| shutil_which := fun command =>
       if bool_decide (command = lit "yarn") then None
       else Some (lit "/usr/bin/" ++ command);
     spawn := fun _ _ => Exited 0;
     fs_write := fun _ _ => WriteOk |}.


(** [npm install] exits with status 1 in the third directory. *)
Definition E_install_fails : env :=
  {| shutil_which := fun command => Some (lit "/usr/bin/" ++ command);
     spawn := fun _ cwd =>
       if bool_decide (cwd = lit "./demo/dmv-app/frontend") then Exited 1 else Exited 0;
     fs_write := fun _ _ => WriteOk |}.

(** The directory [./snap] does not exist: the process cannot be started
    there (ENOENT). *)
Definition E_no_snap : env :=
  {| shutil_which := fun command => Some (lit "/usr/bin/" ++ command);
     spawn := fun _ cwd =>
       if bool_decide (cwd = lit "./snap") then SpawnError 2 else Exited 0;
     fs_write := fun _ _ => WriteOk |}.

(** * Verification *)

(** ** Executing the monad *)

Lemma log_log evs1 evs2 w : log evs2 (log evs1 w) = log (evs1 ++ evs2) w.
Proof. unfold log; cbn. by rewrite app_assoc. Qed.

Lemma log_nil w : log [] w = w.
Proof. destruct w; unfold log; cbn. by rewrite app_nil_r. Qed.

Lemma log_with_files evs1 evs2 upd1 upd2 w :
  log evs2 (with_files upd2 (log evs1 (with_files upd1 w))) =
  log (evs1 ++ evs2) (with_files (fun fs => upd2 (upd1 fs)) w).
Proof. unfold log, with_files; cbn. by rewrite app_assoc. Qed.

Lemma bind_eq {A B} (m : M A) (k : A -> M B) E w :
  (m ≫= k) E w =
  match m E w with
  | (Ok a, w') => k a E w'
  | (Raise e, w') => (Raise e, w')
  end.
Proof. reflexivity. Qed.

Lemma check_command_exists_eq command E w :
  check_command_exists command E w =
  (Ok (bool_decide (is_Some (shutil_which E command))), log [EvWhich command] w).
Proof.
  unfold check_command_exists, which, lookup_path, mbind, M_bind, mret, M_ret, emit.
  by destruct (shutil_which E command).
Qed.

Lemma run_install_eq command path E w :
  run_install command path E w =
  let r := spawn E [command; lit "install"] path in
  let w' := log [EvPrint (msg_running command path);
                 EvRun [command; lit "install"] path r] w in
  match r with
  | Exited rc =>
      if rc =? 0 then (Ok tt, w')
      else (Raise (SystemExit 1), log [EvPrint (msg_install_failed command path)] w')
  | SpawnError errno => (Raise (OSError errno), w')
  end.
Proof.
  unfold run_install, try_except, subprocess_run, print, sys_exit, raise,
    mbind, M_bind, emit.
  cbn. rewrite !log_log. cbn.
  destruct (spawn E [command; lit "install"] path) as [rc|errno]; [|done].
  destruct (rc =? 0); [done|]. by rewrite log_log.
Qed.

Lemma write1_eq d c E w :
  write1 (d, c) E w =
  match fs_write E (env_path d) c with
  | WriteOk => (Ok tt, log (ev_written (d, c)) (with_files (fun fs => put fs (d, c)) w))
  | WriteFail errno residue =>
      (Raise (OSError errno),
       log [EvWrite (env_path d) c (WriteFail errno residue)]
         (with_files (leave residue (env_path d)) w))
  end.
Proof.
  unfold write1, write_text, print, emit, mbind, M_bind. cbn [fst snd].
  fold (env_path d).
  destruct (fs_write E (env_path d) c) as [|errno [s|]]; [|done..].
  by rewrite log_log.
Qed.

(** ** The two loops, by induction on the list of directories *)

Lemma for_each_install E cds :
  exists r evs, install_phase E cds r evs /\
                forall w, for_each cds install1 E w = (r, log evs w).
Proof.
  induction cds as [|[c d] cds (r & evs & Hp & IH)].
  - exists (Ok tt), []. split; [by apply IP_all|]. intros w. by rewrite log_nil.
  - destruct (spawn E [c; lit "install"] d) as [rc|errno] eqn:Hs.
    + destruct (Z.eqb_spec rc 0) as [->|Hrc].
      * exists r, (ev_installed (c, d) ++ evs). split.
        -- destruct Hp as [Hall|pre c' d' post rc -> Hpre Hs' Hrc
                          |pre c' d' post errno -> Hpre Hs'].
           ++ apply (IP_all E ((c, d) :: cds)). by constructor.
           ++ rewrite app_assoc.
              apply (IP_failed E _ ((c, d) :: pre) c' d' post rc); auto.
           ++ rewrite app_assoc.
              apply (IP_crashed E _ ((c, d) :: pre) c' d' post errno); auto.
        -- intros w. cbn [for_each]. rewrite bind_eq. unfold install1 at 1.
           cbn [fst snd]. rewrite run_install_eq, Hs. cbn. by rewrite IH, log_log.
      * eexists _, _. split; [by apply (IP_failed E _ [] c d cds rc)|].
        intros w. cbn [for_each]. rewrite bind_eq. unfold install1 at 1.
        cbn [fst snd]. rewrite run_install_eq, Hs. cbn.
        destruct (Z.eqb_spec rc 0); [done|]. by rewrite log_log.
    + eexists _, _. split; [by apply (IP_crashed E _ [] c d cds errno)|].
      intros w. cbn [for_each]. rewrite bind_eq. unfold install1 at 1.
      cbn [fst snd]. by rewrite run_install_eq, Hs.
Qed.

Lemma for_each_write E dcs :
  exists r evs upd, write_phase E dcs r evs upd /\
                    forall w, for_each dcs write1 E w = (r, log evs (with_files upd w)).
Proof.
  induction dcs as [|[d c] dcs (r & evs & upd & Hp & IH)].
  - exists (Ok tt), [], (fun fs => fs). split; [by apply (WP_all E [])|].
    intros w. rewrite log_nil. by destruct w.
  - destruct (fs_write E (env_path d) c) as [|errno residue] eqn:Hw.
    + exists r, (ev_written (d, c) ++ evs), (fun fs => upd (put fs (d, c))). split.
      * destruct Hp as [Hall|pre d' c' post errno residue -> Hpre Hw'].
        -- apply (WP_all E ((d, c) :: dcs)). by constructor.
        -- rewrite app_assoc.
           apply (WP_failed E _ ((d, c) :: pre) d' c' post errno residue); auto.
      * intros w. cbn [for_each]. by rewrite bind_eq, write1_eq, Hw, IH, log_with_files.
    + eexists _, _, _. split; [by apply (WP_failed E _ [] d c dcs errno residue)|].
      intros w. cbn [for_each]. by rewrite bind_eq, write1_eq, Hw.
Qed.

Lemma for_each_app {A} (xs ys : list A) (f : A -> M unit) E w :
  for_each (xs ++ ys) f E w = (for_each xs f ;; for_each ys f) E w.
Proof.
  revert w. induction xs as [|x xs IH]; intros w; [done|].
  cbn [app for_each]. rewrite !bind_eq.
  destruct (f x E w) as [[[]|e] w']; [|done]. by rewrite IH.
Qed.

Lemma for_each_map {A B} (g : A -> B) (xs : list A) (f : B -> M unit) E w :
  for_each (map g xs) f E w = for_each xs (fun x => f (g x)) E w.
Proof.
  revert w. induction xs as [|x xs IH]; intros w; [done|].
  cbn [map for_each]. rewrite !bind_eq.
  destruct (f (g x) E w) as [[[]|e] w']; [|done]. by rewrite IH.
Qed.

Lemma for_each_one {A} (x : A) (f : A -> M unit) E w :
  for_each [x] f E w = f x E w.
Proof.
  cbn [for_each]. rewrite bind_eq. by destruct (f x E w) as [[[]|e] w'].
Qed.

Lemma provision_eq wallet_key infura_id E w :
  provision wallet_key infura_id E w =
  (for_each INSTALLS install1 ;;
   for_each (WRITES wallet_key infura_id) write1 ;;
   print msg_complete) E w.
Proof.
  unfold provision, INSTALLS, WRITES.
  rewrite !bind_eq, for_each_app, bind_eq, for_each_map.
  change (fun x => install1 (lit "npm", x)) with (fun d => run_install (lit "npm") d).
  destruct (for_each NPM_DIRS (fun d => run_install (lit "npm") d) E w) as [[[]|e] w1]; [|done].
  rewrite for_each_one, !bind_eq.
  change (install1 (lit "yarn", YARN_DIR)) with (run_install (lit "yarn") YARN_DIR).
  destruct (run_install (lit "yarn") YARN_DIR E w1) as [[[]|e] w2]; [|done].
  rewrite !bind_eq, for_each_app, bind_eq, for_each_map.
  change (fun x => write1 (x, backend_env_contents wallet_key infura_id))
    with (fun d => write_env_file_backend d wallet_key infura_id).
  destruct (for_each ENV_DIRS_BACKEND _ E w2) as [[[]|e] w3]; [|done].
  rewrite for_each_one, !bind_eq.
  change (write1 (ENV_DIR_SNAP, snap_env_contents infura_id))
    with (write_env_file_snap ENV_DIR_SNAP infura_id).
  by destruct (write_env_file_snap ENV_DIR_SNAP infura_id E w3) as [[[]|e] w4].
Qed.

(** ** The run as a whole *)

Lemma input_eq prompt E w :
  input prompt E w =
  match stdin w with
  | [] => (Raise EOFError, log [EvPrompt prompt] w)
  | l :: ls => (Ok l, log [EvPrompt prompt] (with_stdin ls w))
  end.
Proof. unfold input, readline, emit, mbind, M_bind. cbn. by destruct (stdin w). Qed.

Lemma stdin_log evs w : stdin (log evs w) = stdin w.
Proof. done. Qed.

Lemma stdin_with_stdin ls w : stdin (with_stdin ls w) = ls.
Proof. done. Qed.

Lemma with_stdin_log ls evs w : with_stdin ls (log evs w) = log evs (with_stdin ls w).
Proof. done. Qed.

Lemma with_stdin_twice ls1 ls2 w : with_stdin ls1 (with_stdin ls2 w) = with_stdin ls1 w.
Proof. done. Qed.

Arguments log : simpl never.
Arguments with_stdin : simpl never.
Arguments with_files : simpl never.

Ltac run :=
  repeat first
    [ rewrite bind_eq | rewrite check_command_exists_eq | rewrite input_eq
    | rewrite stdin_log | rewrite stdin_with_stdin
    | rewrite with_stdin_log | rewrite with_stdin_twice | rewrite log_log
    | progress cbn -[for_each] ].

Lemma main_no_npm E w :
  shutil_which E (lit "npm") = None ->
  main E w = (Raise (SystemExit 1),
              log [EvPrint msg_starting; EvWhich (lit "npm"); EvPrint msg_npm_missing] w).
Proof. intros H. unfold main. run. rewrite H. by run. Qed.

Lemma main_no_yarn E w :
  is_Some (shutil_which E (lit "npm")) ->
  shutil_which E (lit "yarn") = None ->
  main E w = (Raise (SystemExit 1), log (CHECKS ++ [EvPrint msg_yarn_missing]) w).
Proof.
  intros [p Hn] Hy. unfold main. run. rewrite Hn. run. rewrite Hy. by run.
Qed.

Lemma main_tools E w :
  tools_present E ->
  main E w =
  match stdin w with
  | [] => (Raise EOFError, log (CHECKS ++ [EvPrompt prompt_wallet_key]) w)
  | [_] => (Raise EOFError, log (CHECKS ++ PROMPTS) (with_stdin [] w))
  | a :: b :: rest =>
      provision (strip a) (strip b) E (log (CHECKS ++ PROMPTS) (with_stdin rest w))
  end.
Proof.
  intros [[p Hn] [q Hy]]. unfold main. run. rewrite Hn. run. rewrite Hy.
  unfold fmap, M_fmap. run.
  destruct (stdin w) as [|a [|b rest]]; by run.
Qed.

Lemma with_files_log upd evs w : with_files upd (log evs w) = log evs (with_files upd w).
Proof. done. Qed.

Lemma provision_run E wallet_key infura_id :
  exists r1 evs1, install_phase E INSTALLS r1 evs1 /\
    match r1 with
    | Raise e => forall w, provision wallet_key infura_id E w = (Raise e, log evs1 w)
    | Ok _ =>
        exists r2 evs2 upd,
          write_phase E (WRITES wallet_key infura_id) r2 evs2 upd /\
          forall w,
            provision wallet_key infura_id E w =
            match r2 with
            | Ok _ =>
                (Ok tt, log (evs1 ++ evs2 ++ [EvPrint msg_complete]) (with_files upd w))
            | Raise e => (Raise e, log (evs1 ++ evs2) (with_files upd w))
            end
    end.
Proof.
  destruct (for_each_install E INSTALLS) as (r1 & evs1 & H1 & Hi).
  exists r1, evs1. split; [done|].
  destruct r1 as [[]|e].
  2: { intros w. by rewrite provision_eq, bind_eq, Hi. }
  destruct (for_each_write E (WRITES wallet_key infura_id))
    as (r2 & evs2 & upd & H2 & Hw).
  exists r2, evs2, upd. split; [done|]. intros w.
  rewrite provision_eq, bind_eq, Hi, bind_eq, Hw, with_files_log, log_log.
  destruct r2 as [[]|e]; [|done].
  unfold print, emit. by rewrite log_log, <- app_assoc.
Qed.

Lemma run_script_spec E fs lines : script_run E fs lines (run_script E fs lines).
Proof.
  unfold run_script.
  destruct (shutil_which E (lit "npm")) as [p|] eqn:Hn.
  2: { rewrite main_no_npm by done. by apply Run_no_npm. }
  destruct (shutil_which E (lit "yarn")) as [q|] eqn:Hy.
  2: { rewrite main_no_yarn by (by rewrite ?Hn). apply Run_no_yarn; by rewrite ?Hn. }
  assert (Ht : tools_present E) by (split; by rewrite ?Hn, ?Hy).
  rewrite main_tools by done. cbn [stdin].
  destruct lines as [|a [|b rest]].
  - by apply Run_eof_wallet_key.
  - by apply (Run_eof_infura_id E fs _ a).
  - destruct (provision_run E (strip a) (strip b)) as (r1 & evs1 & H1 & Hp).
    destruct r1 as [[]|e].
    + destruct Hp as (r2 & evs2 & upd & H2 & ->). destruct r2 as [[]|e].
      * by apply (Run_complete E fs _ a b rest evs1 evs2 upd).
      * by apply (Run_write_abort E fs _ a b rest evs1 e evs2 upd).
    + rewrite Hp. by apply (Run_install_abort E fs _ a b rest e evs1).
Qed.

(** ** The tool checks *)

Lemma not_tools_present E :
  shutil_which E (lit "npm") = None \/ shutil_which E (lit "yarn") = None ->
  ~ tools_present E.
Proof. intros [H|H] [[? Hn] [? Hy]]; congruence. Qed.

(** The two error lines of [main] are the same line for the two tools. *)
Lemma msg_missing_tools :
  msg_npm_missing = msg_missing (lit "npm") /\
  msg_yarn_missing = msg_missing (lit "yarn").
Proof. by split. Qed.

Lemma elem_of_installed ev cds :
  ev ∈ flat_map ev_installed cds ->
  exists cd, cd ∈ cds /\
    (ev = EvPrint (msg_running cd.1 cd.2) \/
     ev = EvRun [cd.1; lit "install"] cd.2 (Exited 0)).
Proof.
  induction cds as [|cd cds IH]; cbn [flat_map]; intros H.
  - by apply elem_of_nil in H.
  - apply elem_of_app in H as [H|H].
    + exists cd. split; [by left|].
      apply elem_of_cons in H as [->|H]; [by left|].
      apply elem_of_cons in H as [->|H]; [by right|].
      by apply elem_of_nil in H.
    + destruct (IH H) as (cd' & Hin & Hev). exists cd'. split; [by right|done].
Qed.

Lemma elem_of_written ev dcs :
  ev ∈ flat_map ev_written dcs ->
  exists dc, dc ∈ dcs /\
    (ev = EvWrite (env_path dc.1) dc.2 WriteOk \/ ev = EvPrint (msg_wrote dc.1)).
Proof.
  induction dcs as [|dc dcs IH]; cbn [flat_map]; intros H.
  - by apply elem_of_nil in H.
  - apply elem_of_app in H as [H|H].
    + exists dc. split; [by left|].
      apply elem_of_cons in H as [->|H]; [by left|].
      apply elem_of_cons in H as [->|H]; [by right|].
      by apply elem_of_nil in H.
    + destruct (IH H) as (dc' & Hin & Hev). exists dc'. split; [by right|done].
Qed.

(** Claim C2.  When [npm] or [yarn] (or both) is not found, the process
    exits with status 1, the last thing it did was to print the error line
    naming a tool that is missing, and the run contains no prompt, no
    install invocation and no file write: the files and the unread input
    are what they were. *)
Theorem missing_tool_aborts E fs lines :
  shutil_which E (lit "npm") = None \/ shutil_which E (lit "yarn") = None ->
  let R := run_script E fs lines in
  exit_status R = 1 /\
  (exists tool, tool ∈ [lit "npm"; lit "yarn"] /\ shutil_which E tool = None /\
                last (trace (final R)) = Some (EvPrint (msg_missing tool))) /\
  (forall ev, ev ∈ trace (final R) ->
              is_prompt ev = false /\ is_run ev = false /\ is_write ev = false) /\
  files (final R) = fs /\ stdin (final R) = lines.
Proof.
  intros Hmiss R. subst R.
  destruct (run_script_spec E fs lines)
    as [Hn|Hn Hy|Ht|a Ht|a b rest e evs Ht|? ? ? ? ? ? ? Ht|? ? ? ? ? ? Ht];
    try (by destruct (not_tools_present E Hmiss)); cbn.
  - split_and!; try done.
    + exists (lit "npm"). split_and!; [by left|done..].
    + apply Forall_forall. by repeat constructor.
  - split_and!; try done.
    + exists (lit "yarn"). split_and!; [right; by left|done..].
    + apply Forall_forall. by repeat constructor.
Qed.


(** ** The install invocations *)

Lemma written_not_run pre :
  Forall (fun ev => is_run ev = false) (flat_map ev_written pre).
Proof.
  apply Forall_forall. intros ev Hin.
  by apply elem_of_written in Hin as (cd & _ & [->| ->]).
Qed.

Lemma write_phase_not_run E dcs r evs upd :
  write_phase E dcs r evs upd -> Forall (fun ev => is_run ev = false) evs.
Proof.
  intros [Hall|pre d c post errno residue -> Hall Hw].
  - apply written_not_run.
  - apply Forall_app. split; [apply written_not_run|by repeat constructor].
Qed.

Lemma not_run_elem argv cwd r evs :
  Forall (fun ev => is_run ev = false) evs -> EvRun argv cwd r ∉ evs.
Proof. rewrite Forall_forall. intros H Hin. by specialize (H _ Hin). Qed.

Lemma run_in_installed argv cwd r pre :
  EvRun argv cwd r ∈ flat_map ev_installed pre -> r = Exited 0.
Proof. intros H. apply elem_of_installed in H as (cd & _ & [?|?]); congruence. Qed.

Ltac simpl_run := cbn in *; unfold log in *; cbn in *.

Ltac elem_of_pieces H :=
  unfold CHECKS, PROMPTS in H; cbn [app] in H;
  repeat first [rewrite elem_of_app in H | rewrite elem_of_cons in H
               | rewrite elem_of_nil in H];
  destruct_or! H.

Lemma Forall_flat_map_intro {A B} (P : B -> Prop) (f : A -> list B) (l : list A) :
  (forall x, Forall P (f x)) -> Forall P (flat_map f l).
Proof.
  intros H. induction l as [|x l IH]; cbn [flat_map]; [constructor|].
  apply Forall_app. by split.
Qed.

Ltac forall_events :=
  repeat first
    [ apply Forall_nil_2
    | apply Forall_cons; split; [done|]
    | apply Forall_app; split
    | apply Forall_flat_map_intro; intros [? ?] ].

Arguments INSTALLS : simpl never.
Arguments WRITES : simpl never.

(** An install invocation that does not exit with status 0 is the last
    action of the run. *)
Lemma unsuccessful_install_ends_run E fs lines argv cwd pr :
  let R := run_script E fs lines in
  EvRun argv cwd pr ∈ trace (final R) -> pr <> Exited 0 ->
  exists command pre,
    argv = [command; lit "install"] /\ (command, cwd) ∈ INSTALLS /\
    files (final R) = fs /\
    Forall (fun ev => is_write ev = false) (trace (final R)) /\
    exit_status R = 1 /\
    match pr with
    | Exited rc =>
        result R = Raise (SystemExit 1) /\
        trace (final R) =
          pre ++ [EvRun argv cwd pr; EvPrint (msg_install_failed command cwd)]
    | SpawnError errno =>
        result R = Raise (OSError errno) /\
        trace (final R) = pre ++ [EvRun argv cwd pr; EvTraceback (OSError errno)] /\
        Forall (fun ev => is_error_line ev = false) (trace (final R))
    end.
Proof.
  intros R Hev Hpr. subst R.
  destruct (run_script_spec E fs lines)
    as [Hn|Hn Hy|Ht|a Ht|a b rest e evs Ht Hl Hi
       |a b rest evs1 e evs2 upd Ht Hl Hi Hw|a b rest evs1 evs2 upd Ht Hl Hi Hw].
  - simpl_run. by elem_of_pieces Hev.
  - simpl_run. by elem_of_pieces Hev.
  - simpl_run. by elem_of_pieces Hev.
  - simpl_run. by elem_of_pieces Hev.
  - inversion Hi as [|pre c d post rc' Hcds Hall Hs Hrc'|pre c d post errno Hcds Hall Hs];
      subst e evs; simpl_run.
    + elem_of_pieces Hev; try done.
      { apply run_in_installed in Hev. congruence. }
      injection Hev as -> -> ->.
      exists c, (CHECKS ++ PROMPTS ++ flat_map ev_installed pre ++ [EvPrint (msg_running c d)]).
      split_and!; try done.
      * rewrite Hcds. apply elem_of_app. right. by left.
      * forall_events.
      * cbn. by rewrite <- app_assoc.
    + elem_of_pieces Hev; try done.
      { apply run_in_installed in Hev. congruence. }
      injection Hev as -> -> ->.
      exists c, (CHECKS ++ PROMPTS ++ flat_map ev_installed pre ++ [EvPrint (msg_running c d)]).
      split_and!; try done.
      * rewrite Hcds. apply elem_of_app. right. by left.
      * forall_events.
      * cbn. by rewrite <- !app_assoc.
      * forall_events.
  - exfalso. inversion Hi as [Hall| |]; subst evs1.
    assert (Hnr := write_phase_not_run _ _ _ _ _ Hw).
    destruct e; simpl_run; elem_of_pieces Hev; try done;
      try (apply run_in_installed in Hev; congruence);
      by apply not_run_elem in Hev.
  - exfalso. inversion Hi as [Hall| |]; subst evs1.
    assert (Hnr := write_phase_not_run _ _ _ _ _ Hw).
    simpl_run; elem_of_pieces Hev; try done;
      try (apply run_in_installed in Hev; congruence);
      by apply not_run_elem in Hev.
Qed.

(** Claim C3.  If an install invocation of the run exits with a non-zero
    status, it is one of the five of [INSTALLS], run as [<command> install]
    in its directory; the run ends right after it with the one line
    [<cross mark> Error: `<command> install` failed in <directory>.], which
    names the command and the directory, by [SystemExit 1] (status 1); no
    install invocation follows, and the run contains no file write. *)
Theorem failed_install_aborts E fs lines argv cwd rc :
  let R := run_script E fs lines in
  EvRun argv cwd (Exited rc) ∈ trace (final R) -> rc <> 0 ->
  exists command pre,
    argv = [command; lit "install"] /\ (command, cwd) ∈ INSTALLS /\
    trace (final R) =
      pre ++
      [EvRun argv cwd (Exited rc);
       EvPrint ([CROSS_MARK] ++ lit " Error: `" ++ command ++
                lit " install` failed in " ++ cwd ++ lit ".")] /\
    result R = Raise (SystemExit 1) /\ exit_status R = 1 /\
    (forall ev, ev ∈ trace (final R) -> is_write ev = false).
Proof.
  intros R Hev Hrc.
  destruct (unsuccessful_install_ends_run E fs lines argv cwd (Exited rc) Hev)
    as (command & pre & Ha & Hcd & Hf & Hnw & Hst & Hres & Htr); [congruence|].
  exists command, pre. split_and!; try done. by apply Forall_forall.
Qed.

(** Claim C8.  When an install invocation cannot be started (an OS error
    instead of an exit status), [run_install] lets the [OSError] through
    after the two events of the attempt, and a run that reaches this
    invocation ends with that uncaught [OSError] and the interpreter's
    traceback, not with [SystemExit 1]; no error line of the script, in
    particular not the install diagnostic, is printed anywhere in the run. *)
Theorem spawn_error_uncaught E command path errno :
  spawn E [command; lit "install"] path = SpawnError errno ->
  (forall w,
     run_install command path E w =
     (Raise (OSError errno),
      log [EvPrint (msg_running command path);
           EvRun [command; lit "install"] path (SpawnError errno)] w)) /\
  (forall fs lines,
     let R := run_script E fs lines in
     EvRun [command; lit "install"] path (SpawnError errno) ∈ trace (final R) ->
     result R = Raise (OSError errno) /\
     result R <> Raise (SystemExit 1) /\
     (exists pre,
        trace (final R) =
          pre ++ [EvRun [command; lit "install"] path (SpawnError errno);
                  EvTraceback (OSError errno)]) /\
     (forall ev, ev ∈ trace (final R) -> is_error_line ev = false) /\
     is_error_line (EvPrint (msg_install_failed command path)) = true).
Proof.
  intros Hs. split.
  - intros w. by rewrite run_install_eq, Hs.
  - intros fs lines R Hev. subst R.
    destruct (unsuccessful_install_ends_run E fs lines _ _ _ Hev)
      as (c & pre & Ha & Hcd & Hf & Hnw & Hst & Hres & Htr & Hne); [congruence|].
    split_and!; try done.
    + by rewrite Hres.
    + by exists pre.
    + by apply Forall_forall.
Qed.

(** ** The files *)

Lemma lookup_foldl_put dcs fs k :
  foldl put fs dcs !! k = from_option Some (fs !! k) (latest k dcs).
Proof.
  revert fs. induction dcs as [|dc dcs IH]; intros fs; [done|].
  cbn [foldl latest]. rewrite IH. destruct (latest k dcs) as [c|]; [done|].
  unfold put. rewrite lookup_insert. by destruct (decide (env_path dc.1 = k)).
Qed.

Lemma lookup_leave residue k' fs k :
  leave residue k' fs !! k =
  match residue with
  | Some s => if decide (k' = k) then Some s else fs !! k
  | None => fs !! k
  end.
Proof. destruct residue; [apply lookup_insert|done]. Qed.

Lemma env_paths_distinct : NoDup (map env_path (ENV_DIRS_BACKEND ++ [ENV_DIR_SNAP])).
Proof.
  apply (bool_decide_unpack (NoDup (map env_path (ENV_DIRS_BACKEND ++ [ENV_DIR_SNAP])))).
  by vm_compute.
Qed.

Lemma WRITES_paths wallet_key infura_id :
  map (fun dc => env_path dc.1) (WRITES wallet_key infura_id) =
  map env_path (ENV_DIRS_BACKEND ++ [ENV_DIR_SNAP]).
Proof. reflexivity. Qed.

Lemma latest_None k dcs :
  k ∉ map (fun dc => env_path dc.1) dcs -> latest k dcs = None.
Proof.
  induction dcs as [|dc dcs IH]; [done|]. cbn [map latest].
  rewrite not_elem_of_cons. intros [Hk Hin]. rewrite (IH Hin).
  by destruct (decide (env_path dc.1 = k)).
Qed.

Lemma latest_NoDup d c dcs :
  NoDup (map (fun dc => env_path dc.1) dcs) -> (d, c) ∈ dcs ->
  latest (env_path d) dcs = Some c.
Proof.
  induction dcs as [|dc dcs IH]; intros Hnd Hin; [by apply elem_of_nil in Hin|].
  cbn [map] in Hnd. apply NoDup_cons in Hnd as [Hfresh Hnd]. cbn [latest].
  apply elem_of_cons in Hin as [<-|Hin].
  - cbn [fst snd] in *. by rewrite (latest_None _ _ Hfresh), decide_True.
  - by rewrite (IH Hnd Hin).
Qed.

(** After all writes succeeded, each written file holds what was written. *)
Lemma lookup_written fs wallet_key infura_id d c :
  (d, c) ∈ WRITES wallet_key infura_id ->
  foldl put fs (WRITES wallet_key infura_id) !! env_path d = Some c.
Proof.
  intros Hin. rewrite lookup_foldl_put, (latest_NoDup d c); [done| |done].
  rewrite WRITES_paths. apply env_paths_distinct.
Qed.

Lemma install_phase_all E cds r evs :
  Forall (installed E) cds -> install_phase E cds r evs ->
  r = Ok tt /\ evs = flat_map ev_installed cds.
Proof.
  intros Hall [_|pre c d post rc -> _ Hs Hrc|pre c d post errno -> _ Hs]; [done|..];
    apply Forall_app in Hall as [_ Hall]; apply Forall_cons in Hall as [Hcd _];
    unfold installed in Hcd; cbn [fst snd] in Hcd; congruence.
Qed.

Lemma write_phase_all E dcs r evs upd :
  Forall (written E) dcs -> write_phase E dcs r evs upd ->
  r = Ok tt /\ evs = flat_map ev_written dcs /\ upd = (fun fs => foldl put fs dcs).
Proof.
  intros Hall [_|pre d c post errno residue -> _ Hw]; [done|].
  apply Forall_app in Hall as [_ Hall]. apply Forall_cons in Hall as [Hdc _].
  unfold written in Hdc; cbn [fst snd] in Hdc; congruence.
Qed.

(** A run in which nothing fails. *)
Lemma run_completes E fs a b rest :
  tools_present E -> Forall (installed E) INSTALLS ->
  Forall (written E) (WRITES (strip a) (strip b)) ->
  run_script E fs (a :: b :: rest) =
  {| result := Ok tt; exit_status := 0;
     final := {| files := foldl put fs (WRITES (strip a) (strip b));
                 stdin := rest;
                 trace := CHECKS ++ PROMPTS ++ flat_map ev_installed INSTALLS ++
                          flat_map ev_written (WRITES (strip a) (strip b)) ++
                          [EvPrint msg_complete] |} |}.
Proof.
  intros Ht Hi Hw. unfold run_script. rewrite main_tools by done. cbn [stdin].
  destruct (provision_run E (strip a) (strip b)) as (r1 & evs1 & H1 & Hp).
  destruct (install_phase_all _ _ _ _ Hi H1) as [-> ->].
  destruct Hp as (r2 & evs2 & upd & H2 & ->).
  by destruct (write_phase_all _ _ _ _ _ Hw H2) as (-> & -> & ->).
Qed.

(** Conversely, a run that returns normally is such a run. *)
Lemma run_complete_inv E fs lines :
  result (run_script E fs lines) = Ok tt ->
  exists a b rest,
    lines = a :: b :: rest /\ tools_present E /\ Forall (installed E) INSTALLS /\
    Forall (written E) (WRITES (strip a) (strip b)).
Proof.
  destruct (run_script_spec E fs lines)
    as [Hn|Hn Hy|Ht|a Ht|a b rest e evs Ht Hl Hi
       |a b rest evs1 e evs2 upd Ht Hl Hi Hw|a b rest evs1 evs2 upd Ht Hl Hi Hw];
    try done; try (by destruct e).
  intros _. exists a, b, rest. split_and!; try done.
  - by inversion Hi.
  - by inversion Hw.
Qed.

Lemma backend_env_contents_lines wallet_key infura_id :
  backend_env_contents wallet_key infura_id =
  env_line "WALLET_PRIVATE_KEY" wallet_key ++ env_line "INFURA_PROJECT_ID" infura_id.
Proof. unfold backend_env_contents, env_line. by rewrite <- !app_assoc. Qed.

Lemma snap_env_contents_lines infura_id :
  snap_env_contents infura_id =
  env_line "INFURA_PROJECT_ID" infura_id ++
  env_line "COMPANION_APP_ORIGIN" (lit "http://localhost:8000").
Proof. unfold snap_env_contents, env_line. by rewrite <- !app_assoc. Qed.

(** Claim C1, amended.  With both tools present, all installs succeeding,
    the two prompts answered by lines that strip to the non-empty secrets
    [wallet_key] and [infura_id], and every write of a [.env] file
    succeeding, each backend directory's [.env] holds exactly the lines
    [WALLET_PRIVATE_KEY="wallet_key"] and [INFURA_PROJECT_ID="infura_id"],
    and the snap directory's [.env] holds exactly the line
    [INFURA_PROJECT_ID="infura_id"] followed by
    [COMPANION_APP_ORIGIN="http://localhost:8000"]. *)
Theorem env_files_written E fs lines wallet_key infura_id :
  tools_present E -> Forall (installed E) INSTALLS ->
  collected lines wallet_key infura_id ->
  wallet_key <> [] -> infura_id <> [] ->
  Forall (written E) (WRITES wallet_key infura_id) ->
  let R := run_script E fs lines in
  (forall d, d ∈ ENV_DIRS_BACKEND ->
     files (final R) !! env_path d =
     Some (env_line "WALLET_PRIVATE_KEY" wallet_key ++
           env_line "INFURA_PROJECT_ID" infura_id)) /\
  files (final R) !! env_path ENV_DIR_SNAP =
    Some (env_line "INFURA_PROJECT_ID" infura_id ++
          env_line "COMPANION_APP_ORIGIN" (lit "http://localhost:8000")).
Proof.
  intros Ht Hi (a & b & rest & -> & <- & <-) _ _ Hw R. subst R.
  rewrite run_completes by done. cbn [final files].
  rewrite <- backend_env_contents_lines, <- snap_env_contents_lines. split.
  - intros d Hd. apply lookup_written. unfold WRITES. apply elem_of_app. left.
    apply list_elem_of_In.
    apply (in_map (fun d => (d, backend_env_contents (strip a) (strip b)))).
    by apply list_elem_of_In.
  - apply lookup_written. unfold WRITES. apply elem_of_app. right. by left.
Qed.

(** Claim C1 as stated does not hold: with both tools present, all installs
    succeeding and two non-empty secrets collected, the snap [.env] file does
    not exist after the run when the write to it fails, here because the
    directory is missing. *)
Lemma env_files_not_written :
  let E := E_snap_dir_missing in
  let lines := [lit "0xABC"; lit "proj123"] in
  let R := run_script E ∅ lines in
  tools_present E /\ Forall (installed E) INSTALLS /\
  collected lines (lit "0xABC") (lit "proj123") /\
  lit "0xABC" <> [] /\ lit "proj123" <> [] /\
  files (final R) !! env_path ENV_DIR_SNAP = None /\
  files (final R) !! env_path ENV_DIR_SNAP <>
    Some (env_line "INFURA_PROJECT_ID" (lit "proj123") ++
          env_line "COMPANION_APP_ORIGIN" (lit "http://localhost:8000")) /\
  result R = Raise (OSError 2).
Proof.
  cbv zeta.
  assert (Hnone : files (final (run_script E_snap_dir_missing ∅
                    [lit "0xABC"; lit "proj123"])) !! env_path ENV_DIR_SNAP = None)
    by (by vm_compute).
  split_and!.
  - split; by eexists.
  - by repeat constructor.
  - by eexists _, _, _.
  - done.
  - done.
  - done.
  - by rewrite Hnone.
  - by vm_compute.
Qed.

Lemma write_text_overwrites E p data w :
  fs_write E (fspath p) data = WriteOk ->
  files (write_text p data E w).2 !! fspath p = Some data.
Proof. intros H. unfold write_text. rewrite H. cbn. apply lookup_insert_eq. Qed.

Lemma complete_env_files E fs lines wallet_key infura_id d c :
  collected lines wallet_key infura_id ->
  result (run_script E fs lines) = Ok tt ->
  (d, c) ∈ WRITES wallet_key infura_id ->
  files (final (run_script E fs lines)) !! env_path d = Some c.
Proof.
  intros (a & b & rest & -> & <- & <-) Hok Hin.
  destruct (run_complete_inv _ _ _ Hok) as (a' & b' & rest' & [= <- <- <-] & Ht & Hi & Hw).
  rewrite run_completes by done. by apply lookup_written.
Qed.

(** Claim C5 as stated does not hold: two runs with the same secrets, both
    tools present and all installs succeeding in both, need not leave the
    same [.env] contents.  The first run here meets a missing snap directory
    and leaves no snap [.env]; the second, started from the files the first
    left, finds the directory and writes it. *)
Lemma rerun_differs_after_failed_write :
  let lines := [lit "0xABC"; lit "proj123"] in
  let R1 := run_script E_snap_dir_missing ∅ lines in
  let R2 := run_script E_ok (files (final R1)) lines in
  tools_present E_snap_dir_missing /\ Forall (installed E_snap_dir_missing) INSTALLS /\
  tools_present E_ok /\ Forall (installed E_ok) INSTALLS /\
  collected lines (lit "0xABC") (lit "proj123") /\
  files (final R1) !! env_path ENV_DIR_SNAP = None /\
  files (final R2) !! env_path ENV_DIR_SNAP =
    Some (env_line "INFURA_PROJECT_ID" (lit "proj123") ++
          env_line "COMPANION_APP_ORIGIN" (lit "http://localhost:8000")) /\
  files (final R1) !! env_path ENV_DIR_SNAP <> files (final R2) !! env_path ENV_DIR_SNAP.
Proof.
  cbv zeta.
  assert (H1 : files (final (run_script E_snap_dir_missing ∅
                 [lit "0xABC"; lit "proj123"])) !! env_path ENV_DIR_SNAP = None)
    by (by vm_compute).
  assert (H2 : files (final (run_script E_ok
                 (files (final (run_script E_snap_dir_missing ∅
                    [lit "0xABC"; lit "proj123"])))
                 [lit "0xABC"; lit "proj123"])) !! env_path ENV_DIR_SNAP =
               Some (env_line "INFURA_PROJECT_ID" (lit "proj123") ++
                     env_line "COMPANION_APP_ORIGIN" (lit "http://localhost:8000")))
    by (by vm_compute).
  split_and!.
  - split; by eexists.
  - by repeat constructor.
  - split; by eexists.
  - by repeat constructor.
  - by eexists _, _, _.
  - exact H1.
  - exact H2.
  - by rewrite H1, H2.
Qed.

(** Claim C5, amended.  Run the script twice with the same two secrets, the
    second time on the files the first run left, with both tools present,
    all installs succeeding and every write of a [.env] file succeeding in
    both runs.  Then after each of the two runs, whatever the files held
    before, [demo/bank-app/backend/.env] and [demo/dmv-app/backend/.env]
    hold exactly the lines [WALLET_PRIVATE_KEY="wallet_key"] and
    [INFURA_PROJECT_ID="infura_id"], and [snap/packages/snap/.env] holds
    exactly [INFURA_PROJECT_ID="infura_id"] and
    [COMPANION_APP_ORIGIN="http://localhost:8000"]: the contents after the
    second run are those after the first.  A write that succeeds replaces
    whatever the file held by the data written. *)
Theorem rerun_same_env_files E1 E2 fs lines1 lines2 wallet_key infura_id :
  tools_present E1 -> Forall (installed E1) INSTALLS ->
  Forall (written E1) (WRITES wallet_key infura_id) ->
  tools_present E2 -> Forall (installed E2) INSTALLS ->
  Forall (written E2) (WRITES wallet_key infura_id) ->
  collected lines1 wallet_key infura_id -> collected lines2 wallet_key infura_id ->
  let R1 := run_script E1 fs lines1 in
  let R2 := run_script E2 (files (final R1)) lines2 in
  let backend :=
    env_line "WALLET_PRIVATE_KEY" wallet_key ++ env_line "INFURA_PROJECT_ID" infura_id in
  let snap :=
    env_line "INFURA_PROJECT_ID" infura_id ++
    env_line "COMPANION_APP_ORIGIN" (lit "http://localhost:8000") in
  map env_path (ENV_DIRS_BACKEND ++ [ENV_DIR_SNAP]) =
    [lit "demo/bank-app/backend/.env"; lit "demo/dmv-app/backend/.env";
     lit "snap/packages/snap/.env"] /\
  (forall d, d ∈ ENV_DIRS_BACKEND ->
     files (final R1) !! env_path d = Some backend /\
     files (final R2) !! env_path d = Some backend) /\
  (files (final R1) !! env_path ENV_DIR_SNAP = Some snap /\
   files (final R2) !! env_path ENV_DIR_SNAP = Some snap) /\
  (forall k, k ∈ map env_path (ENV_DIRS_BACKEND ++ [ENV_DIR_SNAP]) ->
     files (final R2) !! k = files (final R1) !! k) /\
  (forall E p data w,
     fs_write E (fspath p) data = WriteOk ->
     files (write_text p data E w).2 !! fspath p = Some data).
Proof.
  intros Ht1 Hi1 Hw1 Ht2 Hi2 Hw2 (a1 & b1 & rest1 & -> & <- & <-)
         (a2 & b2 & rest2 & -> & Ha & Hb) R1 R2 backend snap.
  subst R1 R2 backend snap. rewrite <- Ha, <- Hb in Hw2.
  rewrite (run_completes E1) by done. cbn [final files].
  rewrite (run_completes E2) by done. cbn [final files]. rewrite Ha, Hb.
  rewrite <- backend_env_contents_lines, <- snap_env_contents_lines.
  assert (Hback : forall d, d ∈ ENV_DIRS_BACKEND ->
            (d, backend_env_contents (strip a1) (strip b1)) ∈ WRITES (strip a1) (strip b1)).
  { intros d Hd. unfold WRITES. apply elem_of_app. left. apply list_elem_of_In.
    apply (in_map (fun d => (d, backend_env_contents (strip a1) (strip b1)))).
    by apply list_elem_of_In. }
  assert (Hsnap : (ENV_DIR_SNAP, snap_env_contents (strip b1)) ∈ WRITES (strip a1) (strip b1)).
  { unfold WRITES. apply elem_of_app. right. by left. }
  split_and!.
  - reflexivity.
  - intros d Hd. split; by apply lookup_written, Hback.
  - by apply lookup_written.
  - by apply lookup_written.
  - intros k Hk. apply list_elem_of_In, in_map_iff in Hk as (d & <- & Hd).
    apply list_elem_of_In, elem_of_app in Hd as [Hd|Hd].
    + by rewrite !(lookup_written _ _ _ d _ (Hback d Hd)).
    + apply list_elem_of_singleton in Hd as ->.
      by rewrite !(lookup_written _ _ _ _ _ Hsnap).
  - intros E p data w. apply write_text_overwrites.
Qed.

(** Claim C10.  For two runs that return normally and were given the same
    Infura project ID, the snap [.env] files are equal whatever the two
    wallet keys were: the file holds [snap_env_contents infura_id]. *)
Theorem snap_env_ignores_wallet_key E1 E2 fs1 fs2 lines1 lines2 key1 key2 infura_id :
  let R1 := run_script E1 fs1 lines1 in
  let R2 := run_script E2 fs2 lines2 in
  collected lines1 key1 infura_id -> collected lines2 key2 infura_id ->
  result R1 = Ok tt -> result R2 = Ok tt ->
  files (final R1) !! env_path ENV_DIR_SNAP = files (final R2) !! env_path ENV_DIR_SNAP /\
  files (final R1) !! env_path ENV_DIR_SNAP = Some (snap_env_contents infura_id).
Proof.
  intros R1 R2 Hc1 Hc2 H1 H2. subst R1 R2.
  assert (Hin : forall key, (ENV_DIR_SNAP, snap_env_contents infura_id) ∈ WRITES key infura_id).
  { intros key. unfold WRITES. apply elem_of_app. right. by left. }
  rewrite (complete_env_files E1 fs1 lines1 key1 infura_id _ _ Hc1 H1 (Hin key1)).
  by rewrite (complete_env_files E2 fs2 lines2 key2 infura_id _ _ Hc2 H2 (Hin key2)).
Qed.

(** Claim C7.  If a write of the run fails, the [OSError] is not caught: the
    run ends with it, right after the failed write, with the interpreter's
    traceback and status 1; the script prints no error line of its own; no
    further write follows; and every file written before the failure still
    holds what was written. *)
Theorem write_failure_uncaught E fs lines path data errno residue :
  let R := run_script E fs lines in
  EvWrite path data (WriteFail errno residue) ∈ trace (final R) ->
  result R = Raise (OSError errno) /\ exit_status R = 1 /\
  (exists pre,
     trace (final R) =
       pre ++ [EvWrite path data (WriteFail errno residue); EvTraceback (OSError errno)]) /\
  (forall ev, ev ∈ trace (final R) -> is_error_line ev = false) /\
  (forall p c, EvWrite p c WriteOk ∈ trace (final R) -> files (final R) !! p = Some c).
Proof.
  intros R Hev. subst R.
  destruct (run_script_spec E fs lines)
    as [Hn|Hn Hy|Ht|a Ht|a b rest e evs Ht Hl Hi
       |a b rest evs1 e evs2 upd Ht Hl Hi Hw|a b rest evs1 evs2 upd Ht Hl Hi Hw].
  - simpl_run. by elem_of_pieces Hev.
  - simpl_run. by elem_of_pieces Hev.
  - simpl_run. by elem_of_pieces Hev.
  - simpl_run. by elem_of_pieces Hev.
  - exfalso.
    inversion Hi as [|pre c d post rc' Hcds Hall Hs Hrc'|pre c d post errno' Hcds Hall Hs];
      subst e evs; simpl_run; elem_of_pieces Hev; try done;
      by apply elem_of_installed in Hev as (cd & _ & [?|?]).
  - inversion Hi as [Hall| |]; subst evs1.
    inversion Hw as [|pre d c post errno' residue' Hdcs Hpre Hfw]; subst e evs2 upd.
    simpl_run. elem_of_pieces Hev; try done.
    { by apply elem_of_installed in Hev as (cd & _ & [?|?]). }
    { apply elem_of_written in Hev as (dc & _ & [?|?]); congruence. }
    injection Hev as -> -> -> ->. split_and!; try done.
    + exists (CHECKS ++ PROMPTS ++ flat_map ev_installed INSTALLS ++ flat_map ev_written pre).
      cbn. by rewrite <- !app_assoc.
    + apply Forall_forall. forall_events.
    + intros p c' Hin. elem_of_pieces Hin; try done.
      { by apply elem_of_installed in Hin as (cd & _ & [?|?]). }
      apply elem_of_written in Hin as ([d' c''] & Hdc & [[= -> ->]|?]); [|done].
      cbn [fst snd].
      assert (Hnd : NoDup (map (fun dc => env_path dc.1) (pre ++ (d, c) :: post))).
      { rewrite <- Hdcs, WRITES_paths. apply env_paths_distinct. }
      rewrite map_app in Hnd. apply NoDup_app in Hnd as (Hnd1 & Hnd2 & _).
      rewrite lookup_leave, lookup_foldl_put, (latest_NoDup d' c'' pre Hnd1 Hdc). cbn.
      destruct residue' as [s|]; [|done].
      rewrite decide_False; [done|]. intros Heq.
      apply (Hnd2 (env_path d')).
      * apply list_elem_of_In, (in_map (fun dc => env_path dc.1) pre (d', c'')).
        by apply list_elem_of_In.
      * rewrite <- Heq. by left.
  - exfalso. inversion Hi as [Hall| |]; subst evs1.
    inversion Hw as [Hallw|]; subst evs2 upd.
    simpl_run. elem_of_pieces Hev; try done.
    { by apply elem_of_installed in Hev as (cd & _ & [?|?]). }
    { apply elem_of_written in Hev as (dc & _ & [?|?]); congruence. }
Qed.

(** ** The order of the phases *)

Lemma actions_installed cds :
  omap action_of (flat_map ev_installed cds) = map run_action cds.
Proof. induction cds as [|cd cds IH]; [done|]. cbn. by rewrite IH. Qed.

Lemma actions_written dcs :
  omap action_of (flat_map ev_written dcs) = map (fun dc => write_action dc.1) dcs.
Proof. induction dcs as [|dc dcs IH]; [done|]. cbn. by rewrite IH. Qed.

Lemma WRITES_actions wallet_key infura_id :
  map (fun dc => write_action dc.1) (WRITES wallet_key infura_id) =
  map write_action (ENV_DIRS_BACKEND ++ [ENV_DIR_SNAP]).
Proof. reflexivity. Qed.

Lemma install_phase_actions E cds r evs :
  install_phase E cds r evs ->
  omap action_of evs `prefix_of` map run_action cds /\
  (r = Ok tt -> omap action_of evs = map run_action cds) /\
  match r with
  | Ok _ => True
  | Raise e =>
      exists ev, last evs = Some ev /\
        match e with
        | SystemExit c => c = 1 /\ is_error_line ev = true
        | OSError _ => is_run ev = true
        | _ => False
        end
  end.
Proof.
  intros [Hall|pre c d post rc -> Hall Hs Hrc|pre c d post errno -> Hall Hs].
  - by rewrite actions_installed.
  - rewrite omap_app, actions_installed, map_app. split_and!; [|done|].
    + apply prefix_app. by exists (map run_action post).
    + eexists. by rewrite last_app_cons.
  - rewrite omap_app, actions_installed, map_app. split_and!; [|done|].
    + apply prefix_app. by exists (map run_action post).
    + eexists. by rewrite last_app_cons.
Qed.

Lemma write_phase_actions E dcs r evs upd :
  write_phase E dcs r evs upd ->
  omap action_of evs `prefix_of` map (fun dc => write_action dc.1) dcs /\
  (r = Ok tt -> omap action_of evs = map (fun dc => write_action dc.1) dcs) /\
  match r with
  | Ok _ => True
  | Raise e => exists errno, e = OSError errno
  end.
Proof.
  intros [Hall|pre d c post errno residue -> Hall Hw].
  - by rewrite actions_written.
  - rewrite omap_app, actions_written, map_app. split_and!; [|done|by eexists].
    apply prefix_app. by exists (map (fun dc => write_action dc.1) post).
Qed.

Lemma actions_terminate r w :
  omap action_of (trace (final (terminate r w))) = omap action_of (trace w).
Proof.
  destruct r as [u|[]]; cbn; unfold log; cbn; rewrite ?omap_app; cbn;
    by rewrite ?app_nil_r.
Qed.

Lemma actions_checks_prompts evs :
  omap action_of (CHECKS ++ PROMPTS ++ evs) =
  [AWhich (lit "npm"); AWhich (lit "yarn")] ++
  [APrompt prompt_wallet_key; APrompt prompt_infura_id] ++ omap action_of evs.
Proof. reflexivity. Qed.

(** Every run follows the plan, as far as it gets. *)
Lemma run_follows_plan E fs lines :
  omap action_of (trace (final (run_script E fs lines))) `prefix_of` PLAN.
Proof.
  destruct (run_script_spec E fs lines)
    as [Hn|Hn Hy|Ht|a Ht|a b rest e evs Ht Hl Hi
       |a b rest evs1 e evs2 upd Ht Hl Hi Hw|a b rest evs1 evs2 upd Ht Hl Hi Hw];
    rewrite actions_terminate; cbn [trace].
  - by eexists.
  - by eexists.
  - by eexists.
  - by eexists.
  - destruct (install_phase_actions _ _ _ _ Hi) as (Hpre & _ & _).
    rewrite actions_checks_prompts. unfold PLAN.
    do 2 apply prefix_app. by apply prefix_app_r.
  - destruct (install_phase_actions _ _ _ _ Hi) as (_ & Hall & _).
    destruct (write_phase_actions _ _ _ _ _ Hw) as (Hpre & _ & _).
    rewrite actions_checks_prompts, omap_app, Hall by done. unfold PLAN.
    do 3 apply prefix_app. by rewrite <- (WRITES_actions (strip a) (strip b)).
  - destruct (install_phase_actions _ _ _ _ Hi) as (_ & Hall & _).
    destruct (write_phase_actions _ _ _ _ _ Hw) as (_ & Hallw & _).
    rewrite actions_checks_prompts, !omap_app, Hall, Hallw, WRITES_actions by done.
    cbn [omap]. by rewrite app_nil_r.
Qed.

(** The script prints one of its error lines exactly when it ends by
    [SystemExit 1]. *)
Lemma error_line_iff_sys_exit E fs lines :
  (exists ev, ev ∈ trace (final (run_script E fs lines)) /\ is_error_line ev = true) <->
  result (run_script E fs lines) = Raise (SystemExit 1).
Proof.
  destruct (run_script_spec E fs lines)
    as [Hn|Hn Hy|Ht|a Ht|a b rest e evs Ht Hl Hi
       |a b rest evs1 e evs2 upd Ht Hl Hi Hw|a b rest evs1 evs2 upd Ht Hl Hi Hw].
  - split; [done|]. intros _.
    exists (EvPrint msg_npm_missing). split; [|done]. cbn. by repeat constructor.
  - split; [done|]. intros _.
    exists (EvPrint msg_yarn_missing). split; [|done]. cbn. by repeat constructor.
  - split; [|done].
    intros (ev & Hev & Herr). simpl_run. by elem_of_pieces Hev; subst ev.
  - split; [|done].
    intros (ev & Hev & Herr). simpl_run. by elem_of_pieces Hev; subst ev.
  - inversion Hi as [|pre c d post rc' Hcds Hall Hs Hrc'|pre c d post errno Hcds Hall Hs];
      subst e evs.
    + split; [done|]. intros _.
      exists (EvPrint (msg_install_failed c d)). split; [|done].
      simpl_run. rewrite !elem_of_cons, !elem_of_app, !elem_of_cons. tauto.
    + split; [|done].
      intros (ev & Hev & Herr). simpl_run. elem_of_pieces Hev; subst; try done.
      by apply elem_of_installed in Hev as (cd & _ & [->| ->]).
  - inversion Hi as [Hall| |]; subst evs1.
    inversion Hw as [|pre d c post errno residue Hdcs Hpre Hfw]; subst e evs2 upd.
    split; [|done].
    intros (ev & Hev & Herr). simpl_run. elem_of_pieces Hev; subst; try done.
    + by apply elem_of_installed in Hev as (cd & _ & [->| ->]).
    + by apply elem_of_written in Hev as (dc & _ & [->| ->]).
  - inversion Hi as [Hall| |]; subst evs1. inversion Hw as [Hallw|]; subst evs2 upd.
    split; [|done].
    intros (ev & Hev & Herr). simpl_run. elem_of_pieces Hev; subst; try done.
    + by apply elem_of_installed in Hev as (cd & _ & [->| ->]).
    + by apply elem_of_written in Hev as (dc & _ & [->| ->]).
Qed.

(** Claim C4 as stated does not hold: full success and abort with a
    diagnostic are not the only ways a run ends.  When the write of the snap
    [.env] fails, the status is 1, the confirmation is not printed, and the
    script has printed no diagnostic at all: the exception is not caught. *)
Lemma uncaught_exception_is_terminal :
  let R := run_script E_snap_dir_missing ∅ [lit "0xABC"; lit "proj123"] in
  ~ (full_success R \/ checked_abort R) /\
  result R = Raise (OSError 2) /\ exit_status R = 1 /\
  (forall ev, ev ∈ trace (final R) -> is_error_line ev = false).
Proof.
  cbv zeta.
  assert (Hres : result (run_script E_snap_dir_missing ∅ [lit "0xABC"; lit "proj123"]) =
                 Raise (OSError 2)) by (by vm_compute).
  assert (Hno : forall ev,
            ev ∈ trace (final (run_script E_snap_dir_missing ∅ [lit "0xABC"; lit "proj123"])) ->
            is_error_line ev = false).
  { intros ev Hev. destruct (is_error_line ev) eqn:Herr; [|done].
    assert (Hex : Raise (OSError 2) = Raise (SystemExit 1) :> res unit).
    { rewrite <- Hres. apply error_line_iff_sys_exit. by exists ev. }
    done. }
  split_and!; [|exact Hres|by vm_compute|exact Hno].
  intros [(Hok & _)|(_ & ev & Hev & Herr)].
  - by rewrite Hres in Hok.
  - by rewrite (Hno ev Hev) in Herr.
Qed.

(** Claim C4, amended.  The actions of every run are an initial part of the
    one fixed [PLAN]: the two tool checks, the two prompts, the five
    installs, the three writes, whose phases are in order.  A run ends in
    one of three ways: in full success, with status 0, the whole plan done
    and the confirmation as its last output; by abort at a check (a missing
    tool, an install that exits with a non-zero status), where the last
    output is an error line of the script and the status is 1; or by an
    exception that nothing catches (end of input at a prompt, an install
    that cannot be started, a write that fails), where the status is not
    zero and the script has printed no error line. *)
Theorem phases_in_fixed_order E fs lines :
  let R := run_script E fs lines in
  omap action_of (trace (final R)) `prefix_of` PLAN /\
  map phase PLAN = [1; 1; 2; 2; 3; 3; 3; 3; 3; 4; 4; 4]%nat /\
  ((full_success R /\ omap action_of (trace (final R)) = PLAN) \/
   (checked_abort R /\ result R = Raise (SystemExit 1) /\ exit_status R = 1 /\
    exists ev, last (trace (final R)) = Some ev /\ is_error_line ev = true) \/
   uncaught_exception R).
Proof.
  intros R. subst R. split_and!; [apply run_follows_plan|done|].
  pose proof (error_line_iff_sys_exit E fs lines) as Hiff.
  unfold full_success, checked_abort, uncaught_exception.
  assert (Hnone : forall e,
            result (run_script E fs lines) = Raise e -> (forall c, e <> SystemExit c) ->
            forall ev, ev ∈ trace (final (run_script E fs lines)) -> is_error_line ev = false).
  { intros e He Hne ev Hev. destruct (is_error_line ev) eqn:Herr; [|done].
    assert (Hex : result (run_script E fs lines) = Raise (SystemExit 1))
      by (apply Hiff; by exists ev).
    rewrite He in Hex. injection Hex as ->. by destruct (Hne 1). }
  revert Hiff Hnone.
  destruct (run_script_spec E fs lines)
    as [Hn|Hn Hy|Ht|a Ht|a b rest e evs Ht Hl Hi
       |a b rest evs1 e evs2 upd Ht Hl Hi Hw|a b rest evs1 evs2 upd Ht Hl Hi Hw];
    intros Hiff Hnone.
  - right; left. split_and!; [done|by apply Hiff|done|done|by eexists].
  - right; left. split_and!; [done|by apply Hiff|done|done|by eexists].
  - right; right. split_and!; [done|by eexists|by apply (Hnone EOFError)].
  - right; right. split_and!; [done|by eexists|by apply (Hnone EOFError)].
  - destruct (install_phase_actions _ _ _ _ Hi) as (_ & _ & ev & Hlast & He).
    destruct e as [c| |errno|]; try done.
    + destruct He as [-> Hev]. right; left.
      split_and!; [done|by apply Hiff|done|done|]. exists ev. split; [|done].
      cbn [terminate final trace]. by rewrite !app_assoc, last_app, Hlast.
    + right; right. split_and!; [done|by eexists|by apply (Hnone (OSError errno))].
  - destruct (write_phase_actions _ _ _ _ _ Hw) as (_ & _ & errno & ->).
    right; right. split_and!; [done|by eexists|by apply (Hnone (OSError errno))].
  - left. destruct (install_phase_actions _ _ _ _ Hi) as (_ & Hall & _).
    destruct (write_phase_actions _ _ _ _ _ Hw) as (_ & Hallw & _).
    split_and!; [done..| |].
    + cbn [terminate final trace]. by rewrite !app_assoc, last_snoc.
    + cbn [terminate final trace].
      rewrite actions_checks_prompts, !omap_app, Hall, Hallw, WRITES_actions by done.
      cbn [omap]. by rewrite app_nil_r.
Qed.

(** ** The secrets *)








(** ** The theorems at concrete inputs *)

Lemma env_files_written_witness :
  tools_present E_ok /\ Forall (installed E_ok) INSTALLS /\
  collected [lit " 0xABC "; lit "proj123"] (lit "0xABC") (lit "proj123") /\
  forall d, d ∈ ENV_DIRS_BACKEND ->
    files (final (run_script E_ok ∅ [lit " 0xABC "; lit "proj123"])) !! env_path d =
    Some (env_line "WALLET_PRIVATE_KEY" (lit "0xABC") ++
          env_line "INFURA_PROJECT_ID" (lit "proj123")).
Proof.
  assert (Ht : tools_present E_ok) by (split; by eexists).
  assert (Hi : Forall (installed E_ok) INSTALLS) by (by repeat constructor).
  assert (Hc : collected [lit " 0xABC "; lit "proj123"] (lit "0xABC") (lit "proj123"))
    by (by eexists _, _, _).
  split_and!; [done..|].
  apply (env_files_written E_ok ∅ [lit " 0xABC "; lit "proj123"] (lit "0xABC") (lit "proj123"));
    try done.
  by repeat constructor.
Defined.

Lemma missing_tool_aborts_witness :
  shutil_which E_no_yarn (lit "yarn") = None /\
  exit_status (run_script E_no_yarn ∅ [lit "0xABC"; lit "proj123"]) = 1.
Proof.
  split; [reflexivity|].
  apply (missing_tool_aborts E_no_yarn ∅ [lit "0xABC"; lit "proj123"]).
  right. reflexivity.
Defined.

Lemma failed_install_aborts_witness :
  let R := run_script E_install_fails ∅ [lit "0xABC"; lit "proj123"] in
  EvRun [lit "npm"; lit "install"] (lit "./demo/dmv-app/frontend") (Exited 1)
    ∈ trace (final R) /\
  result R = Raise (SystemExit 1) /\
  last (trace (final R)) =
    Some (EvPrint ([CROSS_MARK] ++
                   lit " Error: `npm install` failed in ./demo/dmv-app/frontend.")).
Proof.
  cbv zeta.
  assert (Hin : EvRun [lit "npm"; lit "install"] (lit "./demo/dmv-app/frontend") (Exited 1)
    ∈ trace (final (run_script E_install_fails ∅ [lit "0xABC"; lit "proj123"]))).
  { apply (bool_decide_unpack _). vm_compute. exact I. }
  split; [exact Hin|].
  destruct (failed_install_aborts E_install_fails ∅ [lit "0xABC"; lit "proj123"]
              _ _ 1 Hin) as (c & pre & [= <-] & _ & Htr & Hres & _ & _); [lia|].
  split; [exact Hres|]. rewrite Htr. rewrite last_app_cons. reflexivity.
Defined.

Lemma rerun_same_env_files_witness :
  let lines := [lit "0xABC"; lit "proj123"] in
  let R1 := run_script E_ok ∅ lines in
  let R2 := run_script E_ok (files (final R1)) lines in
  tools_present E_ok /\ Forall (installed E_ok) INSTALLS /\
  Forall (written E_ok) (WRITES (lit "0xABC") (lit "proj123")) /\
  collected lines (lit "0xABC") (lit "proj123") /\
  files (final R1) !! lit "snap/packages/snap/.env" =
    Some (env_line "INFURA_PROJECT_ID" (lit "proj123") ++
          env_line "COMPANION_APP_ORIGIN" (lit "http://localhost:8000")) /\
  files (final R2) !! lit "snap/packages/snap/.env" =
    Some (env_line "INFURA_PROJECT_ID" (lit "proj123") ++
          env_line "COMPANION_APP_ORIGIN" (lit "http://localhost:8000")).
Proof.
  cbv zeta.
  assert (Ht : tools_present E_ok) by (split; by eexists).
  assert (Hi : Forall (installed E_ok) INSTALLS) by (by repeat constructor).
  assert (Hw : Forall (written E_ok) (WRITES (lit "0xABC") (lit "proj123")))
    by (by repeat constructor).
  assert (Hc : collected [lit "0xABC"; lit "proj123"] (lit "0xABC") (lit "proj123"))
    by (by eexists _, _, _).
  split_and!; [done..| |];
    by destruct (rerun_same_env_files E_ok E_ok ∅ _ _ (lit "0xABC") (lit "proj123")
                   Ht Hi Hw Ht Hi Hw Hc Hc) as (_ & _ & [H1 H2] & _).
Defined.


Lemma write_failure_uncaught_witness :
  let R := run_script E_snap_dir_missing ∅ [lit "0xABC"; lit "proj123"] in
  EvWrite (env_path ENV_DIR_SNAP) (snap_env_contents (lit "proj123")) (WriteFail 2 None)
    ∈ trace (final R) /\
  result R = Raise (OSError 2) /\ exit_status R = 1.
Proof.
  cbv zeta.
  assert (Hin : EvWrite (env_path ENV_DIR_SNAP) (snap_env_contents (lit "proj123"))
                  (WriteFail 2 None)
    ∈ trace (final (run_script E_snap_dir_missing ∅ [lit "0xABC"; lit "proj123"]))).
  { apply (bool_decide_unpack _). vm_compute. exact I. }
  split; [exact Hin|].
  destruct (write_failure_uncaught E_snap_dir_missing ∅ [lit "0xABC"; lit "proj123"]
              _ _ _ _ Hin) as (Hres & Hst & _).
  by split.
Defined.

Lemma spawn_error_uncaught_witness :
  let R := run_script E_no_snap ∅ [lit "0xABC"; lit "proj123"] in
  spawn E_no_snap [lit "yarn"; lit "install"] (lit "./snap") = SpawnError 2 /\
  EvRun [lit "yarn"; lit "install"] (lit "./snap") (SpawnError 2) ∈ trace (final R) /\
  result R = Raise (OSError 2).
Proof.
  cbv zeta.
  assert (Hs : spawn E_no_snap [lit "yarn"; lit "install"] (lit "./snap") = SpawnError 2)
    by reflexivity.
  assert (Hin : EvRun [lit "yarn"; lit "install"] (lit "./snap") (SpawnError 2)
    ∈ trace (final (run_script E_no_snap ∅ [lit "0xABC"; lit "proj123"]))).
  { apply (bool_decide_unpack _). vm_compute. exact I. }
  split_and!; [done..|].
  destruct (spawn_error_uncaught E_no_snap _ _ _ Hs) as [_ Hrun].
  by destruct (Hrun ∅ [lit "0xABC"; lit "proj123"] Hin) as (Hres & _).
Defined.

Lemma snap_env_ignores_wallet_key_witness :
  let R1 := run_script E_ok ∅ [lit "0xABC"; lit "proj123"] in
  let R2 := run_script E_ok ∅ [lit "0xDEF"; lit "proj123"] in
  result R1 = Ok tt /\ result R2 = Ok tt /\
  files (final R1) !! env_path ENV_DIR_SNAP = files (final R2) !! env_path ENV_DIR_SNAP.
Proof.
  cbv zeta.
  assert (H1 : result (run_script E_ok ∅ [lit "0xABC"; lit "proj123"]) = Ok tt)
    by (by vm_compute).
  assert (H2 : result (run_script E_ok ∅ [lit "0xDEF"; lit "proj123"]) = Ok tt)
    by (by vm_compute).
  split_and!; [done..|].
  apply (snap_env_ignores_wallet_key E_ok E_ok ∅ ∅
           [lit "0xABC"; lit "proj123"] [lit "0xDEF"; lit "proj123"]
           (lit "0xABC") (lit "0xDEF") (lit "proj123")); try done; by eexists _, _, _.
Defined.


Lemma phases_in_fixed_order_witness :
  let R := run_script E_ok ∅ [lit "0xABC"; lit "proj123"] in
  exit_status R = 0 /\
  omap action_of (trace (final R)) `prefix_of` PLAN /\
  map phase PLAN = [1; 1; 2; 2; 3; 3; 3; 3; 3; 4; 4; 4]%nat.
Proof.
  cbv zeta. split; [reflexivity|].
  destruct (phases_in_fixed_order E_ok ∅ [lit "0xABC"; lit "proj123"])
    as (Hpre & Hph & _).
  by split.
Defined.

(** * Further properties of the script *)

(** ** The functions, one call at a time *)

(** What [run_install] does once the process it starts has run to an exit
    status.  It prints the [Running] line first.  On status 0 it returns
    with nothing more printed.  On any other status it prints the line
    [Error: `<command> install` failed in <path>.] and raises
    [SystemExit 1].  The [CalledProcessError] of [subprocess.run] never
    leaves it. *)
Theorem run_install_outcomes E command path w rc :
  spawn E [command; lit "install"] path = Exited rc ->
  let r := (run_install command path E w).1 in
  let w' := (run_install command path E w).2 in
  let running :=
    EvPrint ([WRENCH] ++ lit " Running `" ++ command ++ lit " install` in " ++
             path ++ lit "...") in
  let failed :=
    EvPrint ([CROSS_MARK] ++ lit " Error: `" ++ command ++ lit " install` failed in " ++
             path ++ lit ".") in
  let ran := EvRun [command; lit "install"] path (Exited rc) in
  (rc = 0 -> r = Ok tt /\ trace w' = trace w ++ [running; ran]) /\
  (rc <> 0 -> r = Raise (SystemExit 1) /\ trace w' = trace w ++ [running; ran; failed]) /\
  (forall rc' argv, r <> Raise (CalledProcessError rc' argv)).
Proof.
  intros Hs. cbv zeta. rewrite run_install_eq. cbv zeta. rewrite Hs.
  destruct (Z.eqb_spec rc 0) as [->|Hrc]; cbn [fst snd]; split_and!; try done.
  intros _. split; [done|]. unfold log, msg_install_failed, msg_running. cbn.
  by rewrite <- app_assoc.
Qed.

Lemma write1_frame E path data w : wrote_one_file E path data w (write1 (path, data) E w).
Proof.
  unfold wrote_one_file. rewrite write1_eq.
  destruct (fs_write E (env_path path) data) as [|errno residue]; cbn [fst snd];
    unfold log, with_files, put, leave; cbn.
  - split_and!; try done; [|apply lookup_insert_eq].
    intros k Hk. by rewrite lookup_insert_ne.
  - split_and!; try done.
    intros k Hk. destruct residue; [by rewrite lookup_insert_ne|done].
Qed.

(** [write_env_file_backend] and [write_env_file_snap] write to the one file
    [<path>/.env] only and read no input; when they return, the write has
    succeeded, the file holds exactly the rendered contents and the line
    [Wrote .env file to <path>] has been printed after the write; when the
    write fails they do not return and print nothing. *)
Theorem write_env_file_frame E path wallet_key infura_id w :
  wrote_one_file E path (backend_env_contents wallet_key infura_id) w
    (write_env_file_backend path wallet_key infura_id E w) /\
  wrote_one_file E path (snap_env_contents infura_id) w
    (write_env_file_snap path infura_id E w).
Proof. split; apply write1_frame. Qed.

Lemma app_pivot_inj {A} (x : A) (l1 l2 k1 k2 : list A) :
  x ∉ l1 -> x ∉ l2 -> l1 ++ x :: k1 = l2 ++ x :: k2 -> l1 = l2 /\ k1 = k2.
Proof.
  revert l2. induction l1 as [|a l1 IH]; intros [|b l2] H1 H2 Heq; cbn in Heq.
  - by injection Heq as ->.
  - injection Heq as -> _. destruct H2. by left.
  - injection Heq as -> _. destruct H1. by left.
  - injection Heq as -> Heq. apply not_elem_of_cons in H1 as [_ H1].
    apply not_elem_of_cons in H2 as [_ H2].
    destruct (IH l2 H1 H2 Heq) as [-> ->]. done.
Qed.

(** The backend file determines the two secrets it was rendered from, as
    long as the wallet keys contain no double quote. *)
Theorem backend_env_contents_inj wallet_key infura_id wallet_key' infura_id' :
  DQUOTE ∉ wallet_key -> DQUOTE ∉ wallet_key' ->
  backend_env_contents wallet_key infura_id =
  backend_env_contents wallet_key' infura_id' ->
  wallet_key = wallet_key' /\ infura_id = infura_id'.
Proof.
  intros H1 H2. unfold backend_env_contents. intros Heq.
  apply app_inv_head in Heq. cbn [app] in Heq. injection Heq as Heq.
  apply app_pivot_inj in Heq as [-> Heq]; [|done..]. split; [done|].
  injection Heq as Heq. by apply app_inv_tail in Heq.
Qed.

(** The snap file determines the Infura ID it was rendered from. *)
Theorem snap_env_contents_inj infura_id infura_id' :
  snap_env_contents infura_id = snap_env_contents infura_id' ->
  infura_id = infura_id'.
Proof.
  unfold snap_env_contents. intros Heq.
  apply app_inv_head in Heq. cbn [app] in Heq. injection Heq as Heq.
  by apply app_inv_tail in Heq.
Qed.

(** Nothing is escaped: a wallet key with a double quote and a newline in
    it gives the same backend file as a different pair of secrets. *)
Theorem env_contents_ambiguous :
  exists wallet_key infura_id wallet_key' infura_id',
    (wallet_key, infura_id) <> (wallet_key', infura_id') /\
    backend_env_contents wallet_key infura_id =
    backend_env_contents wallet_key' infura_id'.
Proof.
  exists (lit "a" ++ [DQUOTE; NEWLINE] ++ lit "INFURA_PROJECT_ID=" ++ [DQUOTE] ++ lit "b"),
         (lit "c"),
         (lit "a"),
         (lit "b" ++ [DQUOTE; NEWLINE] ++ lit "INFURA_PROJECT_ID=" ++ [DQUOTE] ++ lit "c").
  split; [by intros [= ?]|reflexivity].
Qed.

(** ** Whole runs *)

(** The exit status is 0 exactly when [main] returns, and that happens
    exactly when both tools are found, two lines of input are there, every
    install exits with status 0 and every write succeeds. *)
Theorem run_succeeds_iff E fs lines :
  let R := run_script E fs lines in
  (exit_status R = 0 <-> result R = Ok tt) /\
  (result R = Ok tt <->
   exists a b rest,
     lines = a :: b :: rest /\ tools_present E /\ Forall (installed E) INSTALLS /\
     Forall (written E) (WRITES (strip a) (strip b))).
Proof.
  intros R. subst R. split.
  - destruct (run_script_spec E fs lines)
      as [Hn|Hn Hy|Ht|a Ht|a b rest e evs Ht Hl Hi
         |a b rest evs1 e evs2 upd Ht Hl Hi Hw|a b rest evs1 evs2 upd Ht Hl Hi Hw];
      try done.
    + inversion Hi; by subst.
    + inversion Hw; by subst.
  - split; [apply run_complete_inv|].
    intros (a & b & rest & -> & Ht & Hi & Hw). by rewrite run_completes.
Qed.

(** The script ends by [SystemExit] exactly when it has printed one of its
    error lines; the code of the exit, and the status of the process, is
    then 1; and no [CalledProcessError] ever ends the run. *)
Theorem run_exit_status E fs lines :
  let R := run_script E fs lines in
  ((exists ev, ev ∈ trace (final R) /\ is_error_line ev = true) <->
   exists c, result R = Raise (SystemExit c)) /\
  (forall c, result R = Raise (SystemExit c) -> c = 1 /\ exit_status R = 1) /\
  (forall rc argv, result R <> Raise (CalledProcessError rc argv)).
Proof.
  intros R. subst R.
  pose proof (error_line_iff_sys_exit E fs lines) as Hiff. revert Hiff.
  destruct (run_script_spec E fs lines)
    as [Hn|Hn Hy|Ht|a Ht|a b rest e evs Ht Hl Hi
       |a b rest evs1 e evs2 upd Ht Hl Hi Hw|a b rest evs1 evs2 upd Ht Hl Hi Hw];
    intros Hiff.
  - split_and!; [|by intros c [= <-]|done]. rewrite Hiff. split; [by eexists|done].
  - split_and!; [|by intros c [= <-]|done]. rewrite Hiff. split; [by eexists|done].
  - split_and!; [|done..]. rewrite Hiff. split; [done|by intros [c ?]].
  - split_and!; [|done..]. rewrite Hiff. split; [done|by intros [c ?]].
  - inversion Hi as [|pre c d post rc' Hcds Hall Hs Hrc'|pre c d post errno Hcds Hall Hs];
      subst e evs.
    + split_and!; [|by intros c' [= <-]|done]. rewrite Hiff. split; [by eexists|done].
    + split_and!; [|done..]. rewrite Hiff. split; [done|by intros [c' ?]].
  - inversion Hw as [|pre d c post errno residue Hdcs Hpre Hfw]; subst e evs2 upd.
    split_and!; [|done..]. rewrite Hiff. split; [done|by intros [c' ?]].
  - split_and!; [|done..]. rewrite Hiff. split; [done|by intros [c' ?]].
Qed.

(** With both tools present and fewer than two lines of input, the run ends
    with an uncaught [EOFError] at the first prompt that finds no line:
    nothing is installed or written. *)
Theorem missing_input_aborts E fs lines :
  tools_present E -> (length lines < 2)%nat ->
  let R := run_script E fs lines in
  result R = Raise EOFError /\ exit_status R = 1 /\
  last (trace (final R)) = Some (EvTraceback EOFError) /\
  List.filter is_prompt (trace (final R)) =
    take (S (length lines)) [EvPrompt prompt_wallet_key; EvPrompt prompt_infura_id] /\
  (forall ev, ev ∈ trace (final R) -> is_run ev = false /\ is_write ev = false) /\
  files (final R) = fs /\ stdin (final R) = [].
Proof.
  intros Ht Hlen R. subst R. unfold run_script. rewrite main_tools by done. cbn [stdin].
  destruct lines as [|a [|b rest]]; [| |cbn in Hlen; lia].
  - cbn. split_and!; try done. apply Forall_forall. by repeat constructor.
  - cbn. split_and!; try done. apply Forall_forall. by repeat constructor.
Qed.

(** A run reads the first two lines of its input when both tools are
    present, and nothing otherwise; further lines are left unread. *)
Theorem run_reads_two_lines E fs lines :
  stdin (final (run_script E fs lines)) =
  match shutil_which E (lit "npm"), shutil_which E (lit "yarn") with
  | Some _, Some _ => drop 2 lines
  | _, _ => lines
  end.
Proof.
  destruct (run_script_spec E fs lines)
    as [Hn|[? Hn] Hy|[[? Hn] [? Hy]] Hl|a [[? Hn] [? Hy]] Hl
       |a b rest e evs [[? Hn] [? Hy]] Hl Hi
       |a b rest evs1 e evs2 upd [[? Hn] [? Hy]] Hl Hi Hw
       |a b rest evs1 evs2 upd [[? Hn] [? Hy]] Hl Hi Hw];
    rewrite Hn, ?Hy; try subst lines; try done; by destruct e.
Qed.

(** A successful write of a write phase is not undone by the rest of it. *)
Lemma write_phase_persist E dcs r evs upd fs p c :
  write_phase E dcs r evs upd ->
  NoDup (map (fun dc => env_path dc.1) dcs) ->
  EvWrite p c WriteOk ∈ evs -> upd fs !! p = Some c.
Proof.
  intros [Hall|pre d c' post errno residue -> Hall Hw] Hnd Hin.
  - apply elem_of_written in Hin as ([d' c''] & Hdc & [[= -> ->]|?]); [|done].
    cbn [fst snd]. by rewrite lookup_foldl_put, (latest_NoDup d' c'').
  - rewrite map_app in Hnd. apply NoDup_app in Hnd as (Hnd1 & Hnd2 & _).
    apply elem_of_app in Hin as [Hin|Hin].
    2: { rewrite elem_of_cons, elem_of_nil in Hin. by destruct Hin as [?|[]]. }
    apply elem_of_written in Hin as ([d' c''] & Hdc & [[= -> ->]|?]); [|done].
    cbn [fst snd].
    rewrite lookup_leave, lookup_foldl_put, (latest_NoDup d' c'' pre Hnd1 Hdc). cbn.
    destruct residue as [s|]; [|done].
    rewrite decide_False; [done|]. intros Heq.
    apply (Hnd2 (env_path d')).
    + apply list_elem_of_In, (in_map (fun dc => env_path dc.1) pre (d', c'')).
      by apply list_elem_of_In.
    + rewrite <- Heq. by left.
Qed.

Lemma write_phase_reports E dcs r evs upd d :
  write_phase E dcs r evs upd ->
  EvPrint (msg_wrote d) ∈ evs -> exists c, EvWrite (env_path d) c WriteOk ∈ evs.
Proof.
  assert (Hpre : forall pre, EvPrint (msg_wrote d) ∈ flat_map ev_written pre ->
            exists c, EvWrite (env_path d) c WriteOk ∈ flat_map ev_written pre).
  { induction pre as [|[d' c'] pre IH]; cbn [flat_map]; intros Hin.
    - by apply elem_of_nil in Hin.
    - change (ev_written (d', c')) with
        [EvWrite (env_path d') c' WriteOk; EvPrint (msg_wrote d')] in *.
      apply elem_of_app in Hin as [Hin|Hin].
      + rewrite !elem_of_cons, elem_of_nil in Hin. destruct Hin as [?|[[= ->]|[]]]; [done|].
        exists c'. apply elem_of_app. left. by left.
      + destruct (IH Hin) as [c Hc]. exists c. apply elem_of_app. by right. }
  intros [Hall|pre d' c' post errno residue -> Hall Hw] Hin; [by apply Hpre|].
  apply elem_of_app in Hin as [Hin|Hin].
  - destruct (Hpre _ Hin) as [c Hc]. exists c. apply elem_of_app. by left.
  - rewrite elem_of_cons, elem_of_nil in Hin. by destruct Hin as [?|[]].
Qed.

(** Whatever a run has written successfully is in the file when the run
    ends, also when a later step fails; and the script reports a file as
    written only after a successful write to it. *)
Theorem reported_writes_hold E fs lines :
  let R := run_script E fs lines in
  (forall p c, EvWrite p c WriteOk ∈ trace (final R) -> files (final R) !! p = Some c) /\
  (forall d, EvPrint (msg_wrote d) ∈ trace (final R) ->
     exists c, EvWrite (env_path d) c WriteOk ∈ trace (final R)).
Proof.
  intros R. subst R.
  assert (Hnd : forall a b, NoDup (map (fun dc => env_path dc.1) (WRITES a b))).
  { intros a b. rewrite WRITES_paths. apply env_paths_distinct. }
  destruct (run_script_spec E fs lines)
    as [Hn|Hn Hy|Ht|a Ht|a b rest e evs Ht Hl Hi
       |a b rest evs1 e evs2 upd Ht Hl Hi Hw|a b rest evs1 evs2 upd Ht Hl Hi Hw].
  - split; [intros p c Hin|intros d Hin]; simpl_run; by elem_of_pieces Hin.
  - split; [intros p c Hin|intros d Hin]; simpl_run; by elem_of_pieces Hin.
  - split; [intros p c Hin|intros d Hin]; simpl_run; by elem_of_pieces Hin.
  - split; [intros p c Hin|intros d Hin]; simpl_run; by elem_of_pieces Hin.
  - inversion Hi as [|pre c d post rc' Hcds Hall Hs Hrc'|pre c d post errno Hcds Hall Hs];
      subst e evs;
      (split; [intros p' c' Hin|intros d' Hin]; simpl_run; elem_of_pieces Hin; try done;
       by apply elem_of_installed in Hin as (cd & _ & [?|?])).
  - inversion Hi as [Hall| |]; subst evs1.
    assert (exists errno, e = OSError errno) as [errno ->] by (inversion Hw; by eexists).
    split; [intros p c Hin|intros d Hin]; simpl_run; elem_of_pieces Hin; try done;
      try (by apply elem_of_installed in Hin as (cd & _ & [?|?])).
    + by apply (write_phase_persist _ _ _ _ _ _ _ _ Hw).
    + destruct (write_phase_reports _ _ _ _ _ _ Hw Hin) as [c Hc]. exists c.
      rewrite !elem_of_cons, !elem_of_app. tauto.
  - inversion Hi as [Hall| |]; subst evs1.
    split; [intros p c Hin|intros d Hin]; simpl_run; elem_of_pieces Hin; try done;
      try (by apply elem_of_installed in Hin as (cd & _ & [?|?])).
    + by apply (write_phase_persist _ _ _ _ _ _ _ _ Hw).
    + destruct (write_phase_reports _ _ _ _ _ _ Hw Hin) as [c Hc]. exists c.
      rewrite !elem_of_cons, !elem_of_app. tauto.
Qed.

(** The outcome of a run depends on its input only through the two
    stripped secrets: surrounding whitespace and further lines change
    neither the result, nor the files, nor the events. *)
Theorem run_depends_on_stripped_secrets E fs lines lines' wallet_key infura_id :
  collected lines wallet_key infura_id -> collected lines' wallet_key infura_id ->
  let R := run_script E fs lines in
  let R' := run_script E fs lines' in
  result R = result R' /\ exit_status R = exit_status R' /\
  files (final R) = files (final R') /\ trace (final R) = trace (final R').
Proof.
  intros (a & b & rest & -> & <- & <-) (a' & b' & rest' & -> & Ha & Hb) R R'.
  subst R R'. unfold run_script.
  destruct (shutil_which E (lit "npm")) as [p|] eqn:Hn.
  2: { by rewrite !main_no_npm. }
  destruct (shutil_which E (lit "yarn")) as [q|] eqn:Hy.
  2: { by rewrite !main_no_yarn by (by rewrite ?Hn). }
  assert (Ht : tools_present E) by (split; by rewrite ?Hn, ?Hy).
  rewrite !main_tools by done. cbn [stdin]. rewrite Ha, Hb.
  destruct (provision_run E (strip a) (strip b)) as (r1 & evs1 & H1 & Hp).
  destruct r1 as [[]|e].
  - destruct Hp as (r2 & evs2 & upd & H2 & Hp). rewrite !Hp.
    by destruct r2 as [[]|[]].
  - rewrite !Hp. by destruct e.
Qed.

(** The confirmation is printed exactly in the runs that return normally. *)
Theorem confirmation_iff_success E fs lines :
  let R := run_script E fs lines in
  EvPrint msg_complete ∈ trace (final R) <-> result R = Ok tt.
Proof.
  intros R. subst R.
  destruct (run_script_spec E fs lines)
    as [Hn|Hn Hy|Ht|a Ht|a b rest e evs Ht Hl Hi
       |a b rest evs1 e evs2 upd Ht Hl Hi Hw|a b rest evs1 evs2 upd Ht Hl Hi Hw].
  - split; [|done]. intros Hin. simpl_run. by elem_of_pieces Hin.
  - split; [|done]. intros Hin. simpl_run. by elem_of_pieces Hin.
  - split; [|done]. intros Hin. simpl_run. by elem_of_pieces Hin.
  - split; [|done]. intros Hin. simpl_run. by elem_of_pieces Hin.
  - split; [|by destruct e]. intros Hin.
    inversion Hi as [|pre c d post rc' Hcds Hall Hs Hrc'|pre c d post errno Hcds Hall Hs];
      subst e evs; simpl_run; elem_of_pieces Hin; try done;
      by apply elem_of_installed in Hin as (cd & _ & [?|?]).
  - split; [|by destruct e]. intros Hin.
    inversion Hi as [Hall| |]; subst evs1.
    inversion Hw as [|pre d c post errno residue Hdcs Hpre Hfw]; subst e evs2 upd.
    simpl_run; elem_of_pieces Hin; try done.
    + by apply elem_of_installed in Hin as (cd & _ & [?|?]).
    + by apply elem_of_written in Hin as (dc & _ & [?|?]).
  - split; [done|]. intros _. cbn [terminate final trace].
    rewrite !elem_of_app, elem_of_cons. tauto.
Qed.

Lemma write_phase_writes E dcs r evs upd p c wr :
  write_phase E dcs r evs upd -> EvWrite p c wr ∈ evs ->
  exists d, (d, c) ∈ dcs /\ p = env_path d /\ wr = fs_write E p c.
Proof.
  assert (Hpre : forall pre, Forall (written E) pre ->
            EvWrite p c wr ∈ flat_map ev_written pre ->
            exists d, (d, c) ∈ pre /\ p = env_path d /\ wr = fs_write E p c).
  { intros pre Hall Hin.
    apply elem_of_written in Hin as ([d' c'] & Hdc & [[= -> -> ->]|?]); [|done].
    exists d'. split_and!; [done..|].
    rewrite Forall_forall in Hall. by rewrite (Hall _ Hdc). }
  intros [Hall|pre d c' post errno residue -> Hall Hw] Hin; [by apply Hpre|].
  apply elem_of_app in Hin as [Hin|Hin].
  - destruct (Hpre _ Hall Hin) as (d' & ? & ? & ?). exists d'.
    split_and!; [|done..]. apply elem_of_app. by left.
  - rewrite elem_of_cons, elem_of_nil in Hin. destruct Hin as [[= -> -> ->]|[]].
    exists d. split_and!; [|done..]. apply elem_of_app. right. by left.
Qed.

(** Every write of a run, successful or not, goes to the [.env] file of one
    of the three directories, with the contents rendered for it from the
    two stripped secrets. *)
Theorem writes_are_rendered_secrets E fs lines wallet_key infura_id p c wr :
  collected lines wallet_key infura_id ->
  EvWrite p c wr ∈ trace (final (run_script E fs lines)) ->
  exists d, (d, c) ∈ WRITES wallet_key infura_id /\ p = env_path d /\
            wr = fs_write E p c.
Proof.
  intros (a0 & b0 & rest0 & -> & <- & <-) Hin.
  destruct (run_script_spec E fs (a0 :: b0 :: rest0))
    as [Hn|Hn Hy|Ht|a Ht|a b rest e evs Ht Hl Hi
       |a b rest evs1 e evs2 upd Ht [= <- <- <-] Hi Hw
       |a b rest evs1 evs2 upd Ht [= <- <- <-] Hi Hw].
  - simpl_run. by elem_of_pieces Hin.
  - simpl_run. by elem_of_pieces Hin.
  - simpl_run. by elem_of_pieces Hin.
  - simpl_run. by elem_of_pieces Hin.
  - inversion Hi as [|pre c' d post rc' Hcds Hall Hs Hrc'|pre c' d post errno Hcds Hall Hs];
      subst e evs; simpl_run; elem_of_pieces Hin; try done;
      by apply elem_of_installed in Hin as (cd & _ & [?|?]).
  - inversion Hi as [Hall| |]; subst evs1.
    assert (exists errno, e = OSError errno) as [errno ->] by (inversion Hw; by eexists).
    simpl_run; elem_of_pieces Hin; try done.
    + by apply elem_of_installed in Hin as (cd & _ & [?|?]).
    + by apply (write_phase_writes _ _ _ _ _ _ _ _ Hw).
  - inversion Hi as [Hall| |]; subst evs1.
    simpl_run; elem_of_pieces Hin; try done.
    + by apply elem_of_installed in Hin as (cd & _ & [?|?]).
    + by apply (write_phase_writes _ _ _ _ _ _ _ _ Hw).
Qed.

Lemma for_each_write_blind E dcs dcs' :
  data_blind E -> map fst dcs = map fst dcs' ->
  exists r evs evs' upd upd',
    (forall w, for_each dcs write1 E w = (r, log evs (with_files upd w))) /\
    (forall w, for_each dcs' write1 E w = (r, log evs' (with_files upd' w))) /\
    List.filter not_write evs = List.filter not_write evs'.
Proof.
  intros Hblind. revert dcs'.
  induction dcs as [|[d c] dcs IH]; intros [|[d' c'] dcs'] Hfst; try done.
  - exists (Ok tt), [], [], (fun fs => fs), (fun fs => fs).
    split_and!; [intros w; rewrite log_nil; by destruct w..|done].
  - cbn [map fst] in Hfst. injection Hfst as <- Hfst.
    destruct (IH dcs' Hfst) as (r & evs & evs' & upd & upd' & H1 & H2 & Hf).
    destruct (fs_write E (env_path d) c) as [|errno residue] eqn:Hw.
    + exists r, (ev_written (d, c) ++ evs), (ev_written (d, c') ++ evs'),
        (fun fs => upd (put fs (d, c))), (fun fs => upd' (put fs (d, c'))).
      split_and!.
      * intros w. cbn [for_each]. by rewrite bind_eq, write1_eq, Hw, H1, log_with_files.
      * intros w. cbn [for_each].
        by rewrite bind_eq, write1_eq, (Hblind _ c' c), Hw, H2, log_with_files.
      * rewrite !List.filter_app, Hf. done.
    + exists (Raise (OSError errno)),
        [EvWrite (env_path d) c (WriteFail errno residue)],
        [EvWrite (env_path d) c' (WriteFail errno residue)],
        (leave residue (env_path d)), (leave residue (env_path d)).
      split_and!; [| |done].
      * intros w. cbn [for_each]. by rewrite bind_eq, write1_eq, Hw.
      * intros w. cbn [for_each]. by rewrite bind_eq, write1_eq, (Hblind _ c' c), Hw.
Qed.

(** The secrets reach nothing but the data of the writes: in an environment
    where the success of a write does not depend on the data, two runs on
    different input (two lines each) end alike and have the same events
    apart from their writes, so nothing printed and no command line depends
    on the secrets. *)
Theorem secrets_only_in_writes E fs lines lines' :
  data_blind E -> (2 <= length lines)%nat -> (2 <= length lines')%nat ->
  let R := run_script E fs lines in
  let R' := run_script E fs lines' in
  result R = result R' /\
  List.filter not_write (trace (final R)) = List.filter not_write (trace (final R')).
Proof.
  intros Hblind Hlen Hlen' R R'. subst R R'.
  destruct lines as [|a [|b rest]]; [cbn in Hlen; lia..|].
  destruct lines' as [|a' [|b' rest']]; [cbn in Hlen'; lia..|].
  unfold run_script.
  destruct (shutil_which E (lit "npm")) as [p|] eqn:Hn.
  2: { by rewrite !main_no_npm. }
  destruct (shutil_which E (lit "yarn")) as [q|] eqn:Hy.
  2: { by rewrite !main_no_yarn by (by rewrite ?Hn). }
  assert (Ht : tools_present E) by (split; by rewrite ?Hn, ?Hy).
  rewrite !main_tools by done. cbn [stdin]. rewrite !provision_eq, !bind_eq.
  destruct (for_each_install E INSTALLS) as (r1 & evs1 & _ & Hi). rewrite !Hi.
  destruct r1 as [[]|e]; [|by destruct e].
  destruct (for_each_write_blind E (WRITES (strip a) (strip b))
              (WRITES (strip a') (strip b')) Hblind eq_refl)
    as (r & evs & evs' & upd & upd' & H1 & H2 & Hf).
  rewrite !bind_eq, H1, H2.
  destruct r as [[]|e].
  - unfold print, emit. cbn [terminate result final]. unfold log, with_files, with_stdin.
    cbn [trace]. split; [done|].
    by rewrite !List.filter_app, Hf.
  - split; [by destruct e|].
    destruct e; cbn [terminate result final]; unfold log, with_files, with_stdin;
      cbn [trace]; by rewrite !List.filter_app, Hf.
Qed.

(** ** These properties at concrete inputs *)

Lemma run_install_outcomes_witness :
  let w := mkWorld ∅ [] [] in
  let r := (run_install (lit "npm") (lit "./demo/dmv-app/frontend") E_install_fails w).1 in
  spawn E_install_fails [lit "npm"; lit "install"] (lit "./demo/dmv-app/frontend") =
    Exited 1 /\
  r = Raise (SystemExit 1).
Proof.
  cbv zeta.
  assert (Hs : spawn E_install_fails [lit "npm"; lit "install"]
                 (lit "./demo/dmv-app/frontend") = Exited 1) by reflexivity.
  split; [exact Hs|].
  destruct (run_install_outcomes E_install_fails _ _ (mkWorld ∅ [] []) 1 Hs)
    as (_ & Hfail & _).
  destruct Hfail as [Hr _]; [lia|]. exact Hr.
Defined.

Lemma backend_env_contents_inj_witness :
  (DQUOTE ∉ lit "0xABC") /\
  (lit "0xABC" = lit "0xABC" /\ lit "proj123" = lit "proj123").
Proof.
  assert (Hq : DQUOTE ∉ lit "0xABC").
  { apply (bool_decide_unpack _). vm_compute. exact I. }
  split; [exact Hq|].
  by apply (backend_env_contents_inj (lit "0xABC") (lit "proj123")
              (lit "0xABC") (lit "proj123") Hq Hq).
Defined.

Lemma snap_env_contents_inj_witness :
  snap_env_contents (lit "proj123") = snap_env_contents (strip (lit " proj123 ")) /\
  lit "proj123" = strip (lit " proj123 ").
Proof.
  assert (Heq : snap_env_contents (lit "proj123") =
                snap_env_contents (strip (lit " proj123 "))) by reflexivity.
  split; [exact Heq|]. exact (snap_env_contents_inj _ _ Heq).
Defined.

Lemma missing_input_aborts_witness :
  tools_present E_ok /\ (length [lit "0xABC"] < 2)%nat /\
  result (run_script E_ok ∅ [lit "0xABC"]) = Raise EOFError.
Proof.
  assert (Ht : tools_present E_ok) by (split; by eexists).
  assert (Hlen : (length [lit "0xABC"] < 2)%nat) by (cbn; lia).
  split_and!; [done..|].
  apply (missing_input_aborts E_ok ∅ [lit "0xABC"] Ht Hlen).
Defined.

Lemma run_depends_on_stripped_secrets_witness :
  collected [lit "0xABC"; lit "proj123"] (lit "0xABC") (lit "proj123") /\
  collected [lit "  0xABC"; lit "proj123 "; lit "more"] (lit "0xABC") (lit "proj123") /\
  files (final (run_script E_ok ∅ [lit "0xABC"; lit "proj123"])) =
  files (final (run_script E_ok ∅ [lit "  0xABC"; lit "proj123 "; lit "more"])).
Proof.
  assert (H1 : collected [lit "0xABC"; lit "proj123"] (lit "0xABC") (lit "proj123"))
    by (by eexists _, _, _).
  assert (H2 : collected [lit "  0xABC"; lit "proj123 "; lit "more"]
                 (lit "0xABC") (lit "proj123")) by (by eexists _, _, _).
  split_and!; [done..|].
  apply (run_depends_on_stripped_secrets E_ok ∅ _ _ _ _ H1 H2).
Defined.

Lemma writes_are_rendered_secrets_witness :
  let p := env_path ENV_DIR_SNAP in
  let c := snap_env_contents (lit "proj123") in
  collected [lit "0xABC"; lit "proj123"] (lit "0xABC") (lit "proj123") /\
  EvWrite p c (WriteFail 2 None)
    ∈ trace (final (run_script E_snap_dir_missing ∅ [lit "0xABC"; lit "proj123"])) /\
  exists d, (d, c) ∈ WRITES (lit "0xABC") (lit "proj123") /\ p = env_path d /\
            WriteFail 2 None = fs_write E_snap_dir_missing p c.
Proof.
  cbv zeta.
  assert (Hc : collected [lit "0xABC"; lit "proj123"] (lit "0xABC") (lit "proj123"))
    by (by eexists _, _, _).
  assert (Hin : EvWrite (env_path ENV_DIR_SNAP) (snap_env_contents (lit "proj123"))
                  (WriteFail 2 None)
    ∈ trace (final (run_script E_snap_dir_missing ∅ [lit "0xABC"; lit "proj123"]))).
  { apply (bool_decide_unpack _). vm_compute. exact I. }
  split_and!; [done..|].
  apply (writes_are_rendered_secrets E_snap_dir_missing ∅ _ _ _ _ _ _ Hc Hin).
Defined.

Lemma secrets_only_in_writes_witness :
  data_blind E_snap_dir_missing /\
  List.filter not_write
    (trace (final (run_script E_snap_dir_missing ∅ [lit "0xABC"; lit "proj123"]))) =
  List.filter not_write
    (trace (final (run_script E_snap_dir_missing ∅ [lit "0xDEF"; lit "proj456"]))).
Proof.
  assert (Hb : data_blind E_snap_dir_missing) by (intros path data data'; reflexivity).
  split; [exact Hb|].
  apply (secrets_only_in_writes E_snap_dir_missing ∅
           [lit "0xABC"; lit "proj123"] [lit "0xDEF"; lit "proj456"] Hb); cbn; lia.
Defined.
